(** * Traceability analyzer of kopi (scripts/trace-status.py)

    A shallow embedding of the script and the properties its specification
    states about it.

    Text.  A Python [str] is modelled by its UTF-8 encoding, one [ascii] per
    byte.  The regular expressions of the script are ASCII; the classes [\s]
    and [\d] are modelled by the ASCII members of Python's Unicode classes,
    so the model is exact on every document that has no white space and no
    decimal digit outside ASCII.  Sorting strings by code point and sorting
    their encodings by byte agree.

    Effects.  Methods run in a small monad over the interpreter state: the
    analyzer's [documents] dictionary and the two output streams, with
    Python exceptions as an outcome. *)

From Stdlib Require Import String Ascii List Bool Arith ZArith Lia.
From Stdlib Require Import Sorting.Sorted Sorting.Permutation.
From Stdlib Require Import Floats.SpecFloat.
From Stdlib Require Import Numbers.DecimalString.
Import ListNotations.

Local Open Scope list_scope.
Local Open Scope string_scope.

(** ** Characters and strings *)

Module Str.

Definition LF : ascii := "010"%char.

Definition in_range (lo hi c : ascii) : bool :=
  ((nat_of_ascii lo <=? nat_of_ascii c) && (nat_of_ascii c <=? nat_of_ascii hi))%nat.

(** [\s]: tab, LF, VT, FF, CR, the separators 0x1C..0x1F and space. *)
Definition is_space (c : ascii) : bool :=
  let n := nat_of_ascii c in
  (((9 <=? n) && (n <=? 13)) || ((28 <=? n) && (n <=? 31)) || (n =? 32))%nat.

(** [\d] *)
Definition is_digit (c : ascii) : bool := in_range "0" "9" c.

(** [[A-Z]] *)
Definition is_upper (c : ascii) : bool := in_range "A" "Z" c.

(** [[a-z]] *)
Definition is_lower (c : ascii) : bool := in_range "a" "z" c.

Definition chr (a : ascii) (c : ascii) : bool := Ascii.eqb a c.

(** [s.startswith(p)] *)
Definition startswith (s p : string) : bool := String.prefix p s.

(** [needle in hay] on strings. *)
Fixpoint contains (needle hay : string) : bool :=
  String.prefix needle hay
  || match hay with
     | EmptyString => false
     | String _ hay' => contains needle hay'
     end.

Fixpoint lstrip (s : string) : string :=
  match s with
  | String c s' => if is_space c then lstrip s' else s
  | EmptyString => EmptyString
  end.

Fixpoint rstrip (s : string) : string :=
  match s with
  | String c s' =>
      match rstrip s' with
      | EmptyString => if is_space c then EmptyString else String c EmptyString
      | t => String c t
      end
  | EmptyString => EmptyString
  end.

(** [s.strip()] *)
Definition strip (s : string) : string := rstrip (lstrip s).

(** [x in xs] on a list of strings. *)
Definition mem (x : string) (xs : list string) : bool :=
  existsb (String.eqb x) xs.

(** [s1 <= s2], the order [sorted] uses on strings. *)
Definition le (s1 s2 : string) : bool := String.leb s1 s2.

End Str.

(** ** Regular expressions: the fragment of Python's [re] the script uses

    A backtracking matcher with Python's priorities: the left alternative
    first, greedy repetitions longest first, lazy ones shortest first.  Every
    repetition in the script has a single character class as its body. *)

Module Re.

Inductive regex : Type :=
| Empty                                   (* the empty pattern *)
| Char (c : ascii -> bool)                (* one character of a class *)
| Cat (r1 r2 : regex)                     (* r1 r2 *)
| Alt (r1 r2 : regex)                     (* r1|r2 *)
| Repeat (c : ascii -> bool) (lo : nat) (hi : option nat) (greedy : bool)
                                          (* c{lo,hi} and c{lo,hi}? *)
| Group (n : nat) (r : regex)             (* capturing group number n *)
| Ahead (r : regex)                       (* (?=r) *)
| Bol (multiline : bool)                  (* ^ *)
| Eol (multiline : bool)                  (* $ *)
| EndZ.                                   (* \Z *)

(** A position in the subject: its index, the character before it and the
    text from it on, with the spans captured so far. *)
Record cursor : Type := mkCursor {
  pos : nat;
  prev : option ascii;
  rest : string;
  caps : list (nat * (nat * nat))
}.

Definition advance (x : ascii) (rest' : string) (s : cursor) : cursor :=
  mkCursor (S (pos s)) (Some x) rest' (caps s).

Definition set_cap (n : nat) (start stop : nat) (s : cursor) : cursor :=
  mkCursor (pos s) (prev s) (rest s) ((n, (start, stop)) :: caps s).

Fixpoint get_cap (n : nat) (cs : list (nat * (nat * nat))) : option (nat * nat) :=
  match cs with
  | [] => None
  | (m, span) :: cs' => if Nat.eqb n m then Some span else get_cap n cs'
  end.

Definition hi_zero (hi : option nat) : bool :=
  match hi with Some 0 => true | _ => false end.

(** [c{lo,hi}] followed by the continuation [k], from the text [rest0]:
    [more] takes one more character, [stop] leaves the repetition. *)
Fixpoint repeat_class (c : ascii -> bool) (greedy : bool)
    (k : cursor -> option cursor) (lo : nat) (hi : option nat)
    (rest0 : string) (s : cursor) {struct rest0} : option cursor :=
  let stop (_ : unit) := if Nat.eqb lo 0 then k s else None in
  let more (_ : unit) :=
    if hi_zero hi then None else
    match rest0 with
    | String x rest' =>
        if c x
        then repeat_class c greedy k (Nat.pred lo) (option_map Nat.pred hi)
               rest' (advance x rest' s)
        else None
    | EmptyString => None
    end in
  if greedy
  then match more tt with Some s' => Some s' | None => stop tt end
  else match stop tt with Some s' => Some s' | None => more tt end.

Definition at_bol (multiline : bool) (s : cursor) : bool :=
  match prev s with
  | None => true
  | Some c => multiline && Ascii.eqb c Str.LF
  end.

Definition at_eol (multiline : bool) (s : cursor) : bool :=
  match rest s with
  | EmptyString => true
  | String c EmptyString => Ascii.eqb c Str.LF
  | String c _ => multiline && Ascii.eqb c Str.LF
  end.

Fixpoint run (r : regex) (k : cursor -> option cursor) (s : cursor)
    {struct r} : option cursor :=
  match r with
  | Empty => k s
  | Char c =>
      match rest s with
      | String x rest' => if c x then k (advance x rest' s) else None
      | EmptyString => None
      end
  | Cat r1 r2 => run r1 (run r2 k) s
  | Alt r1 r2 =>
      match run r1 k s with
      | Some s' => Some s'
      | None => run r2 k s
      end
  | Repeat c lo hi greedy => repeat_class c greedy k lo hi (rest s) s
  | Group n r1 => run r1 (fun s' => k (set_cap n (pos s) (pos s') s')) s
  | Ahead r1 =>
      match run r1 Some s with
      | Some s' => k (mkCursor (pos s) (prev s) (rest s) (caps s'))
      | None => None
      end
  | Bol ml => if at_bol ml s then k s else None
  | Eol ml => if at_eol ml s then k s else None
  | EndZ => match rest s with EmptyString => k s | _ => None end
  end.

(** A match object: the span of the whole match and of the groups. *)
Record match_object : Type := mkMatch {
  m_string : string;
  m_start : nat;
  m_end : nat;
  m_caps : list (nat * (nat * nat))
}.

Definition slice (text : string) (start stop : nat) : string :=
  String.substring start (stop - start) text.

(** [m.group(0)] *)
Definition group0 (m : match_object) : string :=
  slice (m_string m) (m_start m) (m_end m).

(** [m.group(n)] of a group that took part in the match. *)
Definition group (n : nat) (m : match_object) : string :=
  match get_cap n (m_caps m) with
  | Some (a, b) => slice (m_string m) a b
  | None => EmptyString
  end.

Definition match_at (r : regex) (text : string) (s : cursor) : option match_object :=
  match run r Some (mkCursor (pos s) (prev s) (rest s) []) with
  | Some s' => Some (mkMatch text (pos s) (pos s') (caps s'))
  | None => None
  end.

Definition start_of (text : string) : cursor := mkCursor 0 None text [].

(** The leftmost match that starts at the cursor or after it. *)
Fixpoint scan (r : regex) (text : string) (rest0 : string) (s : cursor)
    {struct rest0} : option match_object :=
  match match_at r text s with
  | Some m => Some m
  | None =>
      match rest0 with
      | String x rest' => scan r text rest' (advance x rest' s)
      | EmptyString => None
      end
  end.

(** The cursor [n] characters further on, or at the end of the text. *)
Fixpoint forward (n : nat) (s : cursor) : cursor :=
  match n, rest s with
  | S n', String x rest' => forward n' (advance x rest' s)
  | _, _ => s
  end.

(** [re.match(r, text)] *)
Definition match_ (r : regex) (text : string) : option match_object :=
  match_at r text (start_of text).

(** [re.search(r, text)] *)
Definition search (r : regex) (text : string) : option match_object :=
  scan r text text (start_of text).

(** [re.findall(r, text)] for a pattern without capturing group that matches
    no empty string: the successive leftmost matches, none overlapping.
    After a match the positions inside it are passed over ([skip] counts
    them) and the scan resumes at its end. *)
Fixpoint findall_scan (r : regex) (text : string) (rest0 : string)
    (skip : nat) (s : cursor) {struct rest0} : list string :=
  let onward (skip' : nat) :=
    match rest0 with
    | String x rest' => findall_scan r text rest' skip' (advance x rest' s)
    | EmptyString => []
    end in
  match skip with
  | S skip' => onward skip'
  | 0 =>
      match match_at r text s with
      | Some m => group0 m :: onward (m_end m - m_start m - 1)
      | None => onward 0
      end
  end.

Definition findall (r : regex) (text : string) : list string :=
  findall_scan r text text 0 (start_of text).

(** Pattern combinators. *)

Fixpoint lit (s : string) : regex :=
  match s with
  | EmptyString => Empty
  | String c EmptyString => Char (Str.chr c)
  | String c s' => Cat (Char (Str.chr c)) (lit s')
  end.

Fixpoint seq (rs : list regex) : regex :=
  match rs with
  | [] => Empty
  | [r] => r
  | r :: rs' => Cat r (seq rs')
  end.

Definition star (c : ascii -> bool) : regex := Repeat c 0 None true.
Definition plus (c : ascii -> bool) : regex := Repeat c 1 None true.
Definition lazy_star (c : ascii -> bool) : regex := Repeat c 0 None false.
Definition opt_char (c : ascii -> bool) : regex := Repeat c 0 (Some 1) true.
(** [(?:r)?] *)
Definition opt (r : regex) : regex := Alt r Empty.

(** [.] without and with [re.DOTALL]. *)
Definition dot (c : ascii) : bool := negb (Ascii.eqb c Str.LF).
Definition dotall (c : ascii) : bool := true.

End Re.

(** ** Python values *)

Module Py.

(** *** Dictionaries: insertion-ordered, one entry per key *)

Definition dict (V : Type) : Type := list (string * V).

(** [d.get(k)] *)
Fixpoint get {V} (k : string) (d : dict V) : option V :=
  match d with
  | [] => None
  | (k', v) :: d' => if String.eqb k k' then Some v else get k d'
  end.

(** [d[k] = v]: an existing key keeps its place, a new one goes last. *)
Fixpoint set {V} (k : string) (v : V) (d : dict V) : dict V :=
  match d with
  | [] => [(k, v)]
  | (k', v') :: d' =>
      if String.eqb k k' then (k, v) :: d' else (k', v') :: set k v d'
  end.

Definition values {V} (d : dict V) : list V := map snd d.

(** [k in d] *)
Definition has {V} (k : string) (d : dict V) : bool :=
  match get k d with Some _ => true | None => false end.

(** *** [sorted]: the ascending arrangement under a total order *)

Section Sorted.
Context {A : Type} (le : A -> A -> bool).

Fixpoint insert (x : A) (xs : list A) : list A :=
  match xs with
  | [] => [x]
  | y :: ys => if le x y then x :: xs else y :: insert x ys
  end.

Definition sorted_by (xs : list A) : list A :=
  fold_right insert [] xs.
End Sorted.

(** [sorted(xs)] on strings. *)
Definition sorted (xs : list string) : list string := sorted_by Str.le xs.

(** The order of [(str, int)] tuples. *)
Definition le_item (a b : string * nat) : bool :=
  if String.eqb (fst a) (fst b) then Nat.leb (snd a) (snd b)
  else Str.le (fst a) (fst b).

(** *** Numbers: [int], and [float] as IEEE 754 binary64 *)

Inductive number : Type :=
| Int (z : Z)
| Float (f : spec_float).

Definition prec : Z := 53.
Definition emax : Z := 1024.

(** [float(z)], exact below 2^53. *)
Definition float_of_Z (z : Z) : spec_float :=
  binary_normalize prec emax z 0 false.

(** [a / b] on ints that convert to [float] exactly (the quotient of the
    two doubles), [ZeroDivisionError] being the caller's concern. *)
Definition truediv (a b : Z) : spec_float :=
  SFdiv prec emax (float_of_Z a) (float_of_Z b).

(** [x * n] for a float [x] and an int [n]. *)
Definition mul_int (x : spec_float) (n : Z) : spec_float :=
  SFmul prec emax x (float_of_Z n).

(** The doubles [1.0] and [100.0]. *)
Definition one : spec_float := S754_finite false 4503599627370496 (-52).
Definition hundred : spec_float := S754_finite false 7036874417766400 (-46).

(** [str(n)] *)
Definition str_nat (n : nat) : string :=
  NilEmpty.string_of_uint (Nat.to_uint n).

Definition str_Z (z : Z) : string :=
  NilEmpty.string_of_int (Z.to_int z).

(** The integer nearest to [m * 2^e], ties to even. *)
Definition round_half_even (m : positive) (e : Z) : Z :=
  match e with
  | Zneg k =>
      let d := Z.pow 2 (Zpos k) in
      let q := Z.div (Zpos m) d in
      let r := Z.modulo (Zpos m) d in
      match Z.compare (2 * r) d with
      | Lt => q
      | Gt => q + 1
      | Eq => if Z.even q then q else q + 1
      end
  | _ => Zpos m * Z.pow 2 e
  end%Z.

(** [format(x, '.0f')] *)
Definition format_0f (x : number) : string :=
  match x with
  | Int z => str_Z z
  | Float (S754_zero s) => if s then "-0" else "0"
  | Float (S754_infinity s) => if s then "-inf" else "inf"
  | Float S754_nan => "nan"
  | Float (S754_finite s m e) =>
      (if s then "-" else "") ++ str_Z (round_half_even m e)
  end.

(** [s.title()] on ASCII letters: a letter that follows a letter is
    lowered, any other letter is raised. *)
Definition upper (c : ascii) : ascii :=
  if Str.is_lower c then ascii_of_nat (nat_of_ascii c - 32) else c.
Definition lower (c : ascii) : ascii :=
  if Str.is_upper c then ascii_of_nat (nat_of_ascii c + 32) else c.

Fixpoint title_from (after_letter : bool) (s : string) : string :=
  match s with
  | EmptyString => EmptyString
  | String c s' =>
      let letter := Str.is_lower c || Str.is_upper c in
      String (if after_letter then lower c else upper c) (title_from letter s')
  end.

Definition title (s : string) : string := title_from false s.

End Py.

(** ** Paths and the file tree *)

Module Fs.

(** An absolute POSIX path, by its components. *)
Definition Path : Type := list string.

(** [str(path)]: every component after a slash, the root as one slash. *)
Fixpoint joined (p : Path) : string :=
  match p with
  | [] => ""
  | c :: p' => "/" ++ c ++ joined p'
  end.

Definition str (p : Path) : string :=
  match p with
  | [] => "/"
  | _ => joined p
  end.

(** [path.name] *)
Definition name (p : Path) : string := last p "".

(** [path.parent] *)
Definition parent (p : Path) : Path := removelast p.

(** [path / c] *)
Definition child (p : Path) (c : string) : Path := (p ++ [c])%list.

Definition eqb (p q : Path) : bool :=
  if list_eq_dec String.string_dec p q then true else false.

Fixpoint is_prefix (p q : Path) : bool :=
  match p, q with
  | [], _ => true
  | c :: p', d :: q' => String.eqb c d && is_prefix p' q'
  | _ :: _, [] => false
  end.

(** What [path.read_text(encoding='utf-8')] does: the text, or an
    exception with its message. *)
Definition read_result : Type := (string + string)%type.

(** The entries of the file tree, in the order the directory scans return
    them: a regular file with its text, or an entry that cannot be read
    (a directory, a file that is not UTF-8, ...) with the error's message. *)
Definition tree : Type := list (Path * read_result).

(** [path.exists()]: the path is an entry or lies above one. *)
Definition exists_ (fs : tree) (p : Path) : bool :=
  existsb (fun e => is_prefix p (fst e)) fs.

(** [fnmatch]: a pattern of literal characters and [*]. *)
Fixpoint fnmatch (pat : string) (s : string) {struct pat} : bool :=
  match pat with
  | EmptyString => match s with EmptyString => true | _ => false end
  | String c pat' =>
      if Ascii.eqb c "*" then
        (fix any_prefix (t : string) : bool :=
           fnmatch pat' t
           || match t with
              | EmptyString => false
              | String _ t' => any_prefix t'
              end) s
      else
        match s with
        | String d s' => Ascii.eqb c d && fnmatch pat' s'
        | EmptyString => false
        end
  end.

(** A pattern without [*]. *)
Fixpoint literal (pat : string) : bool :=
  match pat with
  | EmptyString => true
  | String c pat' => negb (Ascii.eqb c "*") && literal pat'
  end.

(** [base.glob(pattern)] for the two shapes the script uses: [name] for
    the entries directly in [base], [**/name] for the entries at any depth
    below it. *)
Definition glob (fs : tree) (base : Path) (pattern : string) : list Path :=
  let deep := String.prefix "**/" pattern in
  let name_pattern :=
    if deep then String.substring 3 (String.length pattern - 3) pattern
    else pattern in
  let selected (p : Path) :=
    (if deep then is_prefix base (parent p) else eqb base (parent p))
    && negb (eqb p []) && fnmatch name_pattern (name p) in
  filter selected (map fst fs).

(** The first entry for the path decides what reading it gives. *)
Fixpoint read (fs : tree) (p : Path) : read_result :=
  match fs with
  | [] => inr ("[Errno 2] No such file or directory: '" ++ str p ++ "'")
  | (q, r) :: fs' => if eqb p q then r else read fs' p
  end.

End Fs.

(** ** The interpreter state and its monad *)

Inductive DocType : Type := analysis | requirement | adr | task | unknown.

Definition DocType_eqb (a b : DocType) : bool :=
  match a, b with
  | analysis, analysis | requirement, requirement | adr, adr
  | task, task | unknown, unknown => true
  | _, _ => false
  end.

(** The string the script uses for a type. *)
Definition type_name (t : DocType) : string :=
  match t with
  | analysis => "analysis"
  | requirement => "requirement"
  | adr => "adr"
  | task => "task"
  | unknown => "unknown"
  end.

(** The value of [doc.links]: a [dict], or the [defaultdict(list)] that
    [parse_links] hands back when the document has no Links section. *)
Record LinkMap : Type := mkLinks {
  entries : Py.dict (list string);
  default_factory : bool
}.

Record TDLDocument : Type := mkDocument {
  path : Fs.Path;
  filename : string;
  doc_id : string;
  doc_type : DocType;
  links : LinkMap;
  status : string
}.

Inductive exn : Type :=
| Exception (msg : string)     (* any subclass of [Exception] *)
| SystemExit (code : Z).       (* raised by [sys.exit] *)

Inductive outcome (A : Type) : Type :=
| Return (a : A)
| Raise (e : exn).
Arguments Return {A} a.
Arguments Raise {A} e.

(** The mutable state of a run: the analyzer's [self.documents] and what
    has been printed to [sys.stdout] and [sys.stderr], one item per call of
    [print]. *)
Record Interp : Type := mkInterp {
  documents : Py.dict TDLDocument;
  stdout : list string;
  stderr : list string
}.

Definition M (A : Type) : Type := Interp -> outcome A * Interp.

Definition ret {A} (a : A) : M A := fun st => (Return a, st).

Definition bind {A B} (m : M A) (f : A -> M B) : M B :=
  fun st =>
    match m st with
    | (Return a, st') => f a st'
    | (Raise e, st') => (Raise e, st')
    end.

Definition raise {A} (e : exn) : M A := fun st => (Raise e, st).

Notation "x <- m ;; k" := (bind m (fun x => k))
  (at level 61, m at next level, right associativity).
Notation "m ;;; k" := (bind m (fun _ => k))
  (at level 61, right associativity).

(** [try: body except Exception as e: handler(e)]: [SystemExit] is not an
    [Exception] and passes through. *)
Definition try_except {A} (body : M A) (handler : string -> M A) : M A :=
  fun st =>
    match body st with
    | (Raise (Exception msg), st') => handler msg st'
    | r => r
    end.

(** [print(s)] and [print(s, file=sys.stderr)] *)
Definition print (s : string) : M unit :=
  fun st => (Return tt, mkInterp (documents st) (stdout st ++ [s]) (stderr st)).

Definition eprint (s : string) : M unit :=
  fun st => (Return tt, mkInterp (documents st) (stdout st) (stderr st ++ [s])).

(** [self.documents] read and [self.documents[k] = doc] *)
Definition get_documents : M (Py.dict TDLDocument) :=
  fun st => (Return (documents st), st).

Definition set_document (k : string) (doc : TDLDocument) : M unit :=
  fun st => (Return tt,
             mkInterp (Py.set k doc (documents st)) (stdout st) (stderr st)).

(** [for x in xs: body], with the loop's local variables as [acc]. *)
Fixpoint for_ {A B} (xs : list A) (body : A -> B -> M B) (acc : B) : M B :=
  match xs with
  | [] => ret acc
  | x :: xs' => acc' <- body x acc ;; for_ xs' body acc'
  end.

Definition for_each {A} (xs : list A) (body : A -> M unit) : M unit :=
  for_ xs (fun x _ => body x) tt.

(** [path.read_text(encoding='utf-8')] *)
Definition read_text (fs : Fs.tree) (p : Fs.Path) : M string :=
  match Fs.read fs p with
  | inl text => ret text
  | inr msg => raise (Exception msg)
  end.

(** ** class TDLDocument (lines 14-99 of the script) *)

Import Re.

Definition nl : string := String Str.LF "".

(** [^([A-Z]+-[^-]+)], the pattern of [extract_id] *)
Definition ID_HEAD : regex :=
  seq [Bol false;
       Group 1 (seq [plus Str.is_upper; Char (Str.chr "-");
                     plus (fun c => negb (Str.chr "-" c))])].

Definition extract_id (filename : string) : string :=
  match match_ ID_HEAD filename with
  | Some m => group 1 m
  | None => filename
  end.

Definition extract_type (filename : string) : DocType :=
  if Str.startswith filename "AN-" then analysis
  else if Str.startswith filename "FR-" then requirement
  else if Str.startswith filename "NFR-" then requirement
  else if Str.startswith filename "ADR-" then adr
  else if Str.startswith filename "T-" then task
  else unknown.

(** [## Links\s*\n(.*?)(?=\n##|\Z)] with [re.DOTALL] *)
Definition LINKS_SECTION : regex :=
  seq [lit "## Links"; star Str.is_space; Char (Str.chr Str.LF);
       Group 1 (lazy_star dotall);
       Ahead (Alt (lit (nl ++ "##")) EndZ)].

(** [marker\s*(.*?)(?=\n-|\n##|\Z)] with [re.DOTALL] *)
Definition category (marker : regex) : regex :=
  seq [marker; star Str.is_space;
       Group 1 (lazy_star dotall);
       Ahead (Alt (lit (nl ++ "-")) (Alt (lit (nl ++ "##")) EndZ))].

(** [Formal Requirements?:...] and [Requirements?:...] *)
Definition FORMAL_REQUIREMENTS : regex :=
  category (seq [lit "Formal Requirement"; opt_char (Str.chr "s"); lit ":"]).

Definition REQUIREMENTS : regex :=
  category (seq [lit "Requirement"; opt_char (Str.chr "s"); lit ":"]).

Definition patterns : list (regex * string) :=
  [ (FORMAL_REQUIREMENTS, "requirements");
    (REQUIREMENTS, "requirements");
    (category (seq [lit "Related ADR"; opt_char (Str.chr "s"); lit ":"]),
     "adrs");
    (category (seq [lit "Related Analyse"; opt_char (Str.chr "s"); lit ":"]),
     "analyses");
    (category (lit "Design:"), "design");
    (category (lit "Plan:"), "plan") ].

(** [[A-Z]+-[0-9a-z]{4,5}(?:-[^/\s\]]+)?|[A-Z]+-\d+] *)
Definition ID_TOKEN : regex :=
  Alt (seq [plus Str.is_upper; Char (Str.chr "-");
            Repeat (fun c => Str.is_digit c || Str.is_lower c) 4 (Some 5) true;
            opt (seq [Char (Str.chr "-");
                      plus (fun c => negb (Str.chr "/" c || Str.is_space c
                                           || Str.chr "]" c))])])
      (seq [plus Str.is_upper; Char (Str.chr "-"); plus Str.is_digit]).

(** [links[link_type].extend(ids)] on the [defaultdict(list)] *)
Definition extend (link_type : string) (ids : list string)
    (d : Py.dict (list string)) : Py.dict (list string) :=
  match Py.get link_type d with
  | Some old => Py.set link_type (old ++ ids)%list d
  | None => Py.set link_type ([] ++ ids)%list d
  end.

(** The loop over [patterns], on the content of the Links section: each
    pattern is searched once, and what [findall] finds in its group is
    appended to the list of its category. *)
Definition collect_links (links_content : string)
    (d : Py.dict (list string)) : Py.dict (list string) :=
  fold_left
    (fun d (p : regex * string) =>
       match search (fst p) links_content with
       | Some m => extend (snd p) (findall ID_TOKEN (group 1 m)) d
       | None => d
       end)
    patterns d.

(** The body of [parse_links] once the file has been read. *)
Definition parse_links_text (content : string) : LinkMap :=
  match search LINKS_SECTION content with
  | None => mkLinks [] true                       (* return links *)
  | Some m => mkLinks (collect_links (group 1 m) []) false  (* dict(links) *)
  end.

Definition parse_links (fs : Fs.tree) (p : Fs.Path) : M LinkMap :=
  try_except
    (content <- read_text fs p ;;
     ret (parse_links_text content))
    (fun e =>
       eprint ("Warning: Failed to parse " ++ Fs.str p ++ ": " ++ e) ;;;
       ret (mkLinks [] false)).

(** [^- Status:\s*(.+)$] with [re.MULTILINE] *)
Definition STATUS_LINE : regex :=
  seq [Bol true; lit "- Status:"; star Str.is_space;
       Group 1 (plus dot); Eol true].

Definition extract_status_text (content : string) : string :=
  match search STATUS_LINE content with
  | Some m => Str.strip (group 1 m)
  | None => "Unknown"
  end.

Definition extract_status (fs : Fs.tree) (p : Fs.Path) : M string :=
  try_except
    (content <- read_text fs p ;;
     ret (extract_status_text content))
    (fun _ => ret "Unknown").

(** [TDLDocument(path)] *)
Definition TDLDocument_init (fs : Fs.tree) (p : Fs.Path) : M TDLDocument :=
  let filename := Fs.name p in
  let doc_id := extract_id filename in
  let doc_type := extract_type filename in
  links <- parse_links fs p ;;
  status <- extract_status fs p ;;
  ret (mkDocument p filename doc_id doc_type links status).

(** ** class TraceabilityAnalyzer (lines 102-246) *)

Definition doc_paths (repo_root : Fs.Path) : list (Fs.Path * string) :=
  let docs := Fs.child repo_root "docs" in
  [ (Fs.child docs "analysis", "*.md");
    (Fs.child docs "requirements", "*.md");
    (Fs.child docs "adr", "*.md");
    (Fs.child docs "tasks", "**/plan.md");
    (Fs.child docs "tasks", "**/design.md") ].

(** The test that skips [traceability.md] and the templates. *)
Definition skipped (file_path : Fs.Path) : bool :=
  Str.contains "traceability.md" (Fs.str file_path)
  || Str.contains "templates/" (Fs.str file_path).

(** The body of the inner loop. *)
Definition load_file (fs : Fs.tree) (file_path : Fs.Path) : M unit :=
  if skipped file_path then ret tt
  else
    doc <- TDLDocument_init fs file_path ;;
    set_document (doc_id doc) doc.

Definition load_documents (fs : Fs.tree) (repo_root : Fs.Path) : M unit :=
  for_each (doc_paths repo_root)
    (fun bp =>
       let base_path := fst bp in
       let pattern := snd bp in
       if negb (Fs.exists_ fs base_path) then ret tt
       else
         let files :=
           if Str.contains "**" pattern then Fs.glob fs base_path pattern
           else Fs.glob fs base_path pattern in
         for_each files (load_file fs)).

(** [TraceabilityAnalyzer(repo_root)] *)
Definition TraceabilityAnalyzer_init (fs : Fs.tree) (repo_root : Fs.Path)
    : M unit :=
  fun st => load_documents fs repo_root (mkInterp [] (stdout st) (stderr st)).

(** [doc.links.get(key, default)]: no entry is made for a missing key, on a
    [dict] and on a [defaultdict] alike. *)
Definition links_get (key : string) (default : list string) (l : LinkMap)
    : list string :=
  match Py.get key (entries l) with
  | Some ids => ids
  | None => default
  end.

(** [not doc.links.get(key)] *)
Definition links_missing (key : string) (l : LinkMap) : bool :=
  match Py.get key (entries l) with
  | None => true
  | Some [] => true
  | Some (_ :: _) => false
  end.

(** The truth value of a list. *)
Definition truthy {A} (xs : list A) : bool :=
  match xs with [] => false | _ :: _ => true end.

Definition find_implementing_tasks (req_id : string) : M (list string) :=
  docs <- get_documents ;;
  for_ docs
    (fun item tasks =>
       let doc := snd item in
       if DocType_eqb (doc_type doc) task
          && Str.mem req_id (links_get "requirements" [] (links doc))
       then ret (tasks ++ [fst item])%list
       else ret tasks)
    [].

Definition find_orphan_requirements : M (list string) :=
  docs <- get_documents ;;
  for_ docs
    (fun item orphans =>
       if DocType_eqb (doc_type (snd item)) requirement then
         tasks <- find_implementing_tasks (fst item) ;;
         if negb (truthy tasks) then ret (orphans ++ [fst item])%list
         else ret orphans
       else ret orphans)
    [].

Definition find_orphan_tasks : M (list string) :=
  docs <- get_documents ;;
  for_ docs
    (fun item orphans =>
       let doc := snd item in
       if DocType_eqb (doc_type doc) task
          && links_missing "requirements" (links doc)
       then ret (orphans ++ [fst item])%list
       else ret orphans)
    [].

Record Coverage : Type := mkCoverage {
  total_requirements : nat;
  total_tasks : nat;
  total_analyses : nat;
  total_adrs : nat;
  requirements_with_tasks : nat;
  coverage_percentage : Py.number
}.

Definition of_type (t : DocType) (d : TDLDocument) : bool :=
  DocType_eqb (doc_type d) t.

Definition calculate_coverage : M Coverage :=
  docs <- get_documents ;;
  let requirements := filter (of_type requirement) (Py.values docs) in
  let tasks := filter (of_type task) (Py.values docs) in
  let analyses := filter (of_type analysis) (Py.values docs) in
  let adrs := filter (of_type adr) (Py.values docs) in
  req_with_tasks <-
    for_ requirements
      (fun r n =>
         found <- find_implementing_tasks (doc_id r) ;;
         if truthy found then ret (n + 1) else ret n)
      0 ;;
  ret (mkCoverage
         (length requirements) (length tasks) (length analyses) (length adrs)
         req_with_tasks
         (if truthy requirements
          then Py.Float (Py.mul_int
                           (Py.truediv (Z.of_nat req_with_tasks)
                                       (Z.of_nat (length requirements)))
                           100)
          else Py.Int 0)).

(** [self.documents[k]] *)
Definition getitem_document (k : string) : M TDLDocument :=
  docs <- get_documents ;;
  match Py.get k docs with
  | Some doc => ret doc
  | None => raise (Exception ("'" ++ k ++ "'"))
  end.

(** [by_type[doc.doc_type].append(doc)] over the documents. *)
Definition group_by_type (docs : list TDLDocument)
    : Py.dict (list TDLDocument) :=
  fold_left
    (fun by_type doc =>
       let k := type_name (doc_type doc) in
       match Py.get k by_type with
       | Some ds => Py.set k (ds ++ [doc])%list by_type
       | None => Py.set k [doc] by_type
       end)
    docs [].

(** [by_status[doc.status] += 1] over the documents of one type. *)
Definition count_by_status (docs : list TDLDocument) : Py.dict nat :=
  fold_left
    (fun by_status doc =>
       match Py.get (status doc) by_status with
       | Some n => Py.set (status doc) (n + 1) by_status
       | None => Py.set (status doc) (0 + 1) by_status
       end)
    docs [].

Definition when (b : bool) (m : M unit) : M unit := if b then m else ret tt.

(** [print_status] in its three blocks: the coverage lines, the gaps and
    the status summary by document type. *)
Definition print_status_coverage : M unit :=
  print ("=== Kopi TDL Status ===" ++ nl) ;;;
  coverage <- calculate_coverage ;;
  print "Coverage:" ;;;
  print ("  Documents: " ++ Py.str_nat (total_analyses coverage) ++ " analyses, "
         ++ Py.str_nat (total_requirements coverage) ++ " requirements, "
         ++ Py.str_nat (total_adrs coverage) ++ " ADRs, "
         ++ Py.str_nat (total_tasks coverage) ++ " tasks") ;;;
  print ("  Implementation: " ++ Py.str_nat (requirements_with_tasks coverage)
         ++ "/" ++ Py.str_nat (total_requirements coverage) ++ " "
         ++ "requirements have tasks ("
         ++ Py.format_0f (coverage_percentage coverage) ++ "%)") ;;;
  print "".

Definition print_status_gaps (gaps_only : bool) : M unit :=
  orphan_reqs <- find_orphan_requirements ;;
  orphan_tasks <- find_orphan_tasks ;;
  if truthy orphan_reqs || truthy orphan_tasks then
    print "Gaps:" ;;;
    for_each (Py.sorted orphan_reqs)
      (fun req_id =>
         doc <- getitem_document req_id ;;
         print ("  ⚠ " ++ req_id ++ ": No implementing task (Status: "
                ++ status doc ++ ")")) ;;;
    for_each (Py.sorted orphan_tasks)
      (fun task_id => print ("  ⚠ " ++ task_id ++ ": No linked requirements")) ;;;
    print ""
  else when (negb gaps_only) (print ("✓ No gaps detected" ++ nl)).

Definition print_status_by_type : M unit :=
  print "Status by Document Type:" ;;;
  docs <- get_documents ;;
  let by_type := group_by_type (Py.values docs) in
  for_each [analysis; requirement; adr; task]
    (fun t =>
       match Py.get (type_name t) by_type with
       | Some docs_of_type =>
           print (nl ++ "  " ++ Py.title (type_name t) ++ "s:") ;;;
           for_each (Py.sorted_by Py.le_item (count_by_status docs_of_type))
             (fun sc => print ("    " ++ fst sc ++ ": " ++ Py.str_nat (snd sc)))
       | None => ret tt
       end).

Definition print_status (gaps_only : bool) : M unit :=
  when (negb gaps_only) print_status_coverage ;;;
  print_status_gaps gaps_only ;;;
  when (negb gaps_only) print_status_by_type.

Definition check_integrity : M bool :=
  orphan_reqs <- find_orphan_requirements ;;
  orphan_tasks <- find_orphan_tasks ;;
  if truthy orphan_reqs || truthy orphan_tasks then
    eprint "Traceability gaps detected:" ;;;
    for_each orphan_reqs
      (fun req_id => eprint ("  - " ++ req_id ++ ": No implementing task")) ;;;
    for_each orphan_tasks
      (fun task_id => eprint ("  - " ++ task_id ++ ": No linked requirements")) ;;;
    ret false
  else ret true.

(** ** main (lines 249-277) *)

(** The walk from the working directory up to the root; [None] when the
    loop ends without [break]. *)
Fixpoint walk_up (fs : Fs.tree) (reversed : list string) : option Fs.Path :=
  match reversed with
  | [] => None
  | _ :: above =>
      let repo_root := rev reversed in
      if Fs.exists_ fs (Fs.child repo_root ".git")
         || Fs.exists_ fs (Fs.child repo_root "Cargo.toml")
      then Some repo_root
      else walk_up fs above
  end.

Definition find_repo_root (fs : Fs.tree) (cwd : Fs.Path) : option Fs.Path :=
  walk_up fs (rev cwd).

(** [main()] run in the directory [cwd] with the flags [--gaps], [--check]. *)
Definition main (fs : Fs.tree) (cwd : Fs.Path) (gaps check : bool) : M unit :=
  match find_repo_root fs cwd with
  | None =>
      eprint "Error: Could not find repository root" ;;;
      raise (SystemExit 1)
  | Some repo_root =>
      TraceabilityAnalyzer_init fs repo_root ;;;
      if check then
        ok <- check_integrity ;;
        (if negb ok then raise (SystemExit 1) else ret tt) ;;;
        print "✓ Traceability check passed"
      else print_status gaps
  end.

(** The state in which the interpreter starts. *)
Definition fresh : Interp := mkInterp [] [] [].

(** The exit status of the process. *)
Definition exit_code {A} (r : outcome A) : Z :=
  match r with
  | Return _ => 0
  | Raise (SystemExit code) => code
  | Raise (Exception _) => 1
  end.

(** ** What a run builds, as functions of the file tree

    The document [TDLDocument(path)] returns, the warning it prints, and the
    files the loops of [load_documents] visit, in order; the lemmas
    [TDLDocument_init_run] and [load_documents_run] tie them to the code. *)

Definition links_of (fs : Fs.tree) (p : Fs.Path) : LinkMap :=
  match Fs.read fs p with
  | inl content => parse_links_text content
  | inr _ => mkLinks [] false
  end.

Definition status_of (fs : Fs.tree) (p : Fs.Path) : string :=
  match Fs.read fs p with
  | inl content => extract_status_text content
  | inr _ => "Unknown"
  end.

Definition document_of (fs : Fs.tree) (p : Fs.Path) : TDLDocument :=
  mkDocument p (Fs.name p) (extract_id (Fs.name p)) (extract_type (Fs.name p))
    (links_of fs p) (status_of fs p).

Definition warnings_of (fs : Fs.tree) (p : Fs.Path) : list string :=
  match Fs.read fs p with
  | inl _ => []
  | inr msg => ["Warning: Failed to parse " ++ Fs.str p ++ ": " ++ msg]
  end.

Definition enumerated (fs : Fs.tree) (repo_root : Fs.Path) : list Fs.Path :=
  flat_map
    (fun bp => if Fs.exists_ fs (fst bp) then Fs.glob fs (fst bp) (snd bp)
               else [])
    (doc_paths repo_root).

(** The files of the tasks collection. *)
Definition tasks_files (fs : Fs.tree) (repo_root : Fs.Path) : list Fs.Path :=
  let base := Fs.child (Fs.child repo_root "docs") "tasks" in
  (Fs.glob fs base "**/plan.md" ++ Fs.glob fs base "**/design.md")%list.

(** The state after one file of the inner loop. *)
Definition after_file (fs : Fs.tree) (p : Fs.Path) (st : Interp) : Interp :=
  if skipped p then st
  else mkInterp
         (Py.set (extract_id (Fs.name p)) (document_of fs p) (documents st))
         (stdout st)
         (stderr st ++ warnings_of fs p).

(** The state after some more lines on the output stream. *)
Definition printed (lines : list string) (st : Interp) : Interp :=
  mkInterp (documents st) (stdout st ++ lines) (stderr st).

(** Two calls of a method in a row, with both results. *)
Definition twice {A} (q : M A) : M (A * A) :=
  x <- q ;; y <- q ;; ret (x, y).

(** ** The queries as the specification words them

    The graph queries over a corpus, written as comprehensions; the loops
    above are compared with them. *)

Module Spec.

Definition Corpus : Type := Py.dict TDLDocument.

(** The [requirements] link list of a document, empty when absent. *)
Definition requirements_of (d : TDLDocument) : list string :=
  links_get "requirements" [] (links d).

Definition implements (requirementId : string) (item : string * TDLDocument)
    : bool :=
  DocType_eqb (doc_type (snd item)) task
  && Str.mem requirementId (requirements_of (snd item)).

Definition implementingTasks (c : Corpus) (requirementId : string)
    : list string :=
  map fst (filter (implements requirementId) c).

Definition is_orphan_requirement (c : Corpus) (item : string * TDLDocument)
    : bool :=
  DocType_eqb (doc_type (snd item)) requirement
  && match implementingTasks c (fst item) with [] => true | _ => false end.

Definition orphanRequirements (c : Corpus) : list string :=
  map fst (filter (is_orphan_requirement c) c).

Definition is_orphan_task (item : string * TDLDocument) : bool :=
  DocType_eqb (doc_type (snd item)) task
  && match Py.get "requirements" (entries (links (snd item))) with
     | None => true
     | Some ids => match ids with [] => true | _ => false end
     end.

Definition orphanTasks (c : Corpus) : list string :=
  map fst (filter is_orphan_task c).

(** The requirement documents, and those with an implementing task. *)
Definition R (c : Corpus) : list TDLDocument :=
  filter (of_type requirement) (Py.values c).

Definition C (c : Corpus) : list TDLDocument :=
  filter (fun r => match implementingTasks c (doc_id r) with
                   | [] => false | _ => true end)
         (R c).

End Spec.

(** A small repository to run the script on. *)

Module Sample.

Definition root : Fs.Path := ["home"; "kopi"].

Definition doc (collection file : string) : Fs.Path :=
  (root ++ ["docs"; collection; file])%list.

Definition task_file (dir file : string) : Fs.Path :=
  (root ++ ["docs"; "tasks"; dir; file])%list.

Definition bad_utf8 : string :=
  "'utf-8' codec can't decode byte 0xff in position 0: invalid start byte".

Definition tree : Fs.tree :=
  [ (Fs.child root "Cargo.toml", inl "[package]");
    (doc "requirements" "FR-0002-later.md",
     inl ("# FR-0002" ++ nl ++ "- Status: Draft" ++ nl));
    (doc "requirements" "FR-0001-first.md", inr bad_utf8);
    (doc "requirements" "traceability.md", inl "# index");
    (doc "requirements" "NFR-0abc1-speed.md",
     inl ("# NFR" ++ nl ++ "- Status: Approved" ++ nl));
    (doc "adr" "ADR-0003-x.md", inl "# decision");
    (doc "analysis" "AN-0004-x.md", inl "- Status: Done");
    (doc "analysis" "T-0009-x.md",
     inl ("- Status: Done" ++ nl ++ "## Links" ++ nl
          ++ "- Requirements: NFR-0abc1"));
    (task_file "T-0005-x" "plan.md",
     inl ("## Links" ++ nl ++ "- Requirements: FR-0001"));
    (task_file "templates" "plan.md", inl "# template");
    (task_file "T-0006-y" "design.md",
     inl ("## Links" ++ nl ++ "- Requirements: FR-0002")) ].

(** A repository whose only requirement has its task. *)
Definition covered : Fs.tree :=
  [ (Fs.child root ".git", inr "[Errno 21] Is a directory");
    (doc "requirements" "FR-0001-first.md", inl "# FR-0001");
    (doc "requirements" "T-0001-first.md",
     inl ("## Links" ++ nl ++ "- Requirements: FR-0001")) ].

(** A task plan whose Links section has the one marker
    [Formal Requirements:], and one that has both markers. *)
Definition plan : Fs.Path := task_file "T-0001-x" "plan.md".

Definition formal_only : string :=
  "## Links" ++ nl ++ "Formal Requirements: FR-0001".

Definition formal_first : string :=
  "## Links" ++ nl ++ "- Formal Requirements: FR-0001" ++ nl
  ++ "- Requirements: FR-0002".

Definition loaded (fs : Fs.tree) : Interp :=
  snd (TraceabilityAnalyzer_init fs root fresh).

End Sample.

(** ** Words for the statements about text *)

(** Every character of [w] is of the class [c]. *)
Fixpoint all_of (c : ascii -> bool) (w : string) : bool :=
  match w with
  | EmptyString => true
  | String x w' => c x && all_of c w'
  end.

(** The text [tail] does not go on with a character of the class [c]. *)
Definition stops (c : ascii -> bool) (tail : string) : bool :=
  match tail with
  | EmptyString => true
  | String x _ => negb (c x)
  end.

Definition not_hyphen (c : ascii) : bool := negb (Str.chr "-" c).


(** The last file of a list that is loaded under the identifier [k]. *)
Definition last_under (k : string) (ps : list Fs.Path) : option Fs.Path :=
  find (fun p => negb (skipped p) && String.eqb (extract_id (Fs.name p)) k)
       (rev ps).

(** The directories of the collections. *)
Definition collection (repo_root : Fs.Path) (dir : string) : Fs.Path :=
  Fs.child (Fs.child repo_root "docs") dir.

(** A directory holds one of the two markers of a repository root. *)
Definition has_marker (fs : Fs.tree) (dir : Fs.Path) : bool :=
  Fs.exists_ fs (Fs.child dir ".git")
  || Fs.exists_ fs (Fs.child dir "Cargo.toml").

(** * Properties *)

(** ** The monad and its loops *)

Lemma for_pure {A B} (g : A -> B -> B) (xs : list A) (body : A -> B -> M B)
    (st : Interp) :
  (forall x acc, In x xs -> body x acc st = (Return (g x acc), st)) ->
  forall acc,
    for_ xs body acc st = (Return (fold_left (fun a x => g x a) xs acc), st).
Proof.
  induction xs as [|x xs IH]; intros Hbody acc.
  - reflexivity.
  - simpl. unfold bind. rewrite Hbody by (left; reflexivity).
    apply IH. intros y a Hy. apply Hbody. right. exact Hy.
Qed.

Lemma fold_left_collect {A B} (keep : A -> bool) (h : A -> B) (xs : list A) :
  forall acc,
    fold_left (fun a x => if keep x then (a ++ [h x])%list else a) xs acc
    = (acc ++ map h (filter keep xs))%list.
Proof.
  induction xs as [|x xs IH]; intro acc; simpl.
  - now rewrite app_nil_r.
  - rewrite IH. destruct (keep x); simpl.
    + now rewrite <- app_assoc.
    + reflexivity.
Qed.

Lemma fold_left_count {A} (keep : A -> bool) (xs : list A) :
  forall n,
    fold_left (fun a x => if keep x then a + 1 else a) xs n
    = n + length (filter keep xs).
Proof.
  induction xs as [|x xs IH]; intro n; simpl.
  - lia.
  - rewrite IH. destruct (keep x); simpl; lia.
Qed.

(** ** The queries run as the comprehensions say, and leave the state as it
    was *)

Lemma find_implementing_tasks_run (req_id : string) (st : Interp) :
  find_implementing_tasks req_id st
  = (Return (Spec.implementingTasks (documents st) req_id), st).
Proof.
  unfold find_implementing_tasks, bind, get_documents.
  rewrite (for_pure
             (fun item tasks =>
                if Spec.implements req_id item
                then (tasks ++ [fst item])%list else tasks)).
  - now rewrite fold_left_collect.
  - intros item acc _. unfold Spec.implements, Spec.requirements_of.
    now destruct (_ && _).
Qed.

Lemma find_orphan_requirements_run (st : Interp) :
  find_orphan_requirements st
  = (Return (Spec.orphanRequirements (documents st)), st).
Proof.
  unfold find_orphan_requirements, bind at 1, get_documents.
  rewrite (for_pure
             (fun item orphans =>
                if Spec.is_orphan_requirement (documents st) item
                then (orphans ++ [fst item])%list else orphans)).
  - now rewrite fold_left_collect.
  - intros item acc _. unfold Spec.is_orphan_requirement.
    destruct (DocType_eqb _ _); simpl; [|reflexivity].
    unfold bind. rewrite find_implementing_tasks_run.
    now destruct (Spec.implementingTasks _ _).
Qed.

Lemma find_orphan_tasks_run (st : Interp) :
  find_orphan_tasks st = (Return (Spec.orphanTasks (documents st)), st).
Proof.
  unfold find_orphan_tasks, bind, get_documents.
  rewrite (for_pure
             (fun item orphans =>
                if Spec.is_orphan_task item
                then (orphans ++ [fst item])%list else orphans)).
  - now rewrite fold_left_collect.
  - intros item acc _. unfold Spec.is_orphan_task, links_missing.
    destruct (DocType_eqb _ _); simpl; [|reflexivity].
    now destruct (Py.get _ _) as [[|? ?]|].
Qed.

Lemma count_covered_run (rs : list TDLDocument) (st : Interp) :
  for_ rs
    (fun r n =>
       found <- find_implementing_tasks (doc_id r) ;;
       if truthy found then ret (n + 1) else ret n)
    0 st
  = (Return
       (length
          (filter (fun r => match Spec.implementingTasks (documents st) (doc_id r) with
                            | [] => false | _ => true end) rs)),
     st).
Proof.
  rewrite (for_pure
             (fun r n =>
                if match Spec.implementingTasks (documents st) (doc_id r) with
                   | [] => false | _ => true end
                then n + 1 else n)).
  - now rewrite fold_left_count.
  - intros r n _. unfold bind. rewrite find_implementing_tasks_run.
    now destruct (Spec.implementingTasks _ _).
Qed.

(** The value [calculate_coverage] returns on a corpus. *)
Lemma calculate_coverage_run (st : Interp) :
  calculate_coverage st
  = (Return
       (mkCoverage
          (length (Spec.R (documents st)))
          (length (filter (of_type task) (Py.values (documents st))))
          (length (filter (of_type analysis) (Py.values (documents st))))
          (length (filter (of_type adr) (Py.values (documents st))))
          (length (Spec.C (documents st)))
          (if truthy (Spec.R (documents st))
           then Py.Float
                  (Py.mul_int
                     (Py.truediv (Z.of_nat (length (Spec.C (documents st))))
                                 (Z.of_nat (length (Spec.R (documents st)))))
                     100)
           else Py.Int 0)),
     st).
Proof.
  unfold calculate_coverage, bind at 1, get_documents.
  unfold bind. rewrite count_covered_run. reflexivity.
Qed.

Lemma DocType_eqb_eq (a b : DocType) : DocType_eqb a b = true <-> a = b.
Proof. destruct a, b; simpl; split; intro H; try reflexivity; discriminate. Qed.

Lemma mem_In (x : string) (xs : list string) : Str.mem x xs = true <-> In x xs.
Proof.
  unfold Str.mem. rewrite existsb_exists. split.
  - intros [y [Hy Heq]]. apply String.eqb_eq in Heq. now subst.
  - intro H. exists x. split; [exact H | apply String.eqb_refl].
Qed.

Lemma In_map_fst_filter {A B} (keep : A * B -> bool) (c : list (A * B)) (k : A) :
  In k (map fst (filter keep c)) <-> exists d, In (k, d) c /\ keep (k, d) = true.
Proof.
  rewrite in_map_iff. split.
  - intros [[k' d] [Hk Hin]]. simpl in Hk. subst k'.
    apply filter_In in Hin. now exists d.
  - intros [d [Hin Hkeep]]. exists (k, d). split; [reflexivity|].
    apply filter_In. now split.
Qed.

Lemma twice_run {A} (q : M A) (v : A) (st : Interp) :
  q st = (Return v, st) -> twice q st = (Return (v, v), st).
Proof. intro H. unfold twice, bind, ret. now rewrite H, H. Qed.

(** ** Implementing tasks and orphans *)

(** C3: [find_implementing_tasks] returns the keys of the documents of type
    task whose requirements list contains the identifier, in the order of
    the corpus; [find_orphan_requirements] returns, in that order too, the
    keys of exactly the documents of type requirement for which
    [find_implementing_tasks] returns the empty list. *)
Theorem orphan_requirements_exact (st : Interp) :
  (forall req_id,
     find_implementing_tasks req_id st
     = (Return (map fst (filter (Spec.implements req_id) (documents st))), st)
     /\ forall k,
         In k (Spec.implementingTasks (documents st) req_id) <->
         exists d, In (k, d) (documents st) /\ doc_type d = task
                   /\ In req_id (links_get "requirements" [] (links d)))
  /\ find_orphan_requirements st
     = (Return (map fst (filter (Spec.is_orphan_requirement (documents st))
                               (documents st))), st)
  /\ forall k,
       In k (Spec.orphanRequirements (documents st)) <->
       exists d, In (k, d) (documents st) /\ doc_type d = requirement
                 /\ find_implementing_tasks k st = (Return [], st).
Proof.
  split; [|split].
  - intro req_id. split; [apply find_implementing_tasks_run|].
    intro k. unfold Spec.implementingTasks. rewrite In_map_fst_filter.
    split; intros [d H]; exists d.
    + destruct H as [Hin H]. unfold Spec.implements in H. simpl in H.
      apply andb_true_iff in H. destruct H as [Ht Hm].
      apply DocType_eqb_eq in Ht. apply mem_In in Hm. now repeat split.
    + destruct H as [Hin [Ht Hm]]. split; [exact Hin|].
      unfold Spec.implements. simpl. apply andb_true_iff. split.
      * now apply DocType_eqb_eq.
      * now apply mem_In.
  - apply find_orphan_requirements_run.
  - intro k. unfold Spec.orphanRequirements. rewrite In_map_fst_filter.
    split; intros [d H]; exists d.
    + destruct H as [Hin H]. unfold Spec.is_orphan_requirement in H.
      simpl in H. apply andb_true_iff in H. destruct H as [Ht He].
      apply DocType_eqb_eq in Ht. repeat split; try assumption.
      rewrite find_implementing_tasks_run.
      destruct (Spec.implementingTasks _ _); [reflexivity | discriminate].
    + destruct H as [Hin [Ht He]]. split; [exact Hin|].
      unfold Spec.is_orphan_requirement. simpl. apply andb_true_iff. split.
      * now apply DocType_eqb_eq.
      * rewrite find_implementing_tasks_run in He.
        injection He as He. now rewrite He.
Qed.

(** C5: [find_orphan_tasks] returns, in the order of the corpus, the keys of
    exactly the documents of type task whose links have no [requirements]
    entry or an empty one; a task with an empty link map is among them. *)
Theorem orphan_tasks_exact (st : Interp) :
  find_orphan_tasks st
  = (Return (map fst (filter Spec.is_orphan_task (documents st))), st)
  /\ (forall k,
        In k (Spec.orphanTasks (documents st)) <->
        exists d, In (k, d) (documents st) /\ doc_type d = task
                  /\ (Py.get "requirements" (entries (links d)) = None
                      \/ Py.get "requirements" (entries (links d)) = Some []))
  /\ (forall k d,
        In (k, d) (documents st) -> doc_type d = task ->
        entries (links d) = [] ->
        In k (Spec.orphanTasks (documents st))).
Proof.
  assert (Hiff : forall k,
        In k (Spec.orphanTasks (documents st)) <->
        exists d, In (k, d) (documents st) /\ doc_type d = task
                  /\ (Py.get "requirements" (entries (links d)) = None
                      \/ Py.get "requirements" (entries (links d)) = Some [])).
  { intro k. unfold Spec.orphanTasks. rewrite In_map_fst_filter.
    split; intros [d H]; exists d.
    - destruct H as [Hin H]. unfold Spec.is_orphan_task in H. simpl in H.
      apply andb_true_iff in H. destruct H as [Ht He].
      apply DocType_eqb_eq in Ht. repeat split; try assumption.
      destruct (Py.get _ _) as [[|? ?]|]; auto; discriminate.
    - destruct H as [Hin [Ht He]]. split; [exact Hin|].
      unfold Spec.is_orphan_task. simpl. apply andb_true_iff. split.
      + now apply DocType_eqb_eq.
      + destruct He as [He|He]; now rewrite He. }
  split; [apply find_orphan_tasks_run | split; [exact Hiff|]].
  intros k d Hin Ht He. apply Hiff. exists d. repeat split; try assumption.
  left. now rewrite He.
Qed.

(** The scenario of the specification: a corpus of one task without links. *)
Example orphan_task_scenario :
  let t := mkDocument ["T-0002-x.md"] "T-0002-x.md" "T-0002" task
             (mkLinks [] false) "Unknown" in
  fst (find_orphan_tasks (mkInterp [("T-0002", t)] [] [])) = Return ["T-0002"].
Proof. reflexivity. Qed.

(** C10: each of the four queries returns its result in the state it was
    called in, so that a second call in a row returns the same result and
    the corpus and the streams are as before. *)
Theorem queries_twice (st : Interp) :
  (forall req_id, exists v,
     twice (find_implementing_tasks req_id) st = (Return (v, v), st))
  /\ (exists v, twice find_orphan_requirements st = (Return (v, v), st))
  /\ (exists v, twice find_orphan_tasks st = (Return (v, v), st))
  /\ (exists v, twice calculate_coverage st = (Return (v, v), st)).
Proof.
  repeat split.
  - intro req_id. eexists. apply twice_run, find_implementing_tasks_run.
  - eexists. apply twice_run, find_orphan_requirements_run.
  - eexists. apply twice_run, find_orphan_tasks_run.
  - eexists. apply twice_run, calculate_coverage_run.
Qed.

(** ** Coverage *)

Section Binary64.

Local Open Scope Z_scope.

Local Ltac std_Z :=
  change IntDef.Z.sub with Z.sub in *;
  change IntDef.Z.add with Z.add in *;
  change IntDef.Z.max with Z.max in *;
  change IntDef.Z.min with Z.min in *;
  change IntDef.Z.leb with Z.leb in *;
  change IntDef.Z.shiftl with Z.shiftl in *;
  change IntDef.Z.div_eucl with Z.div_eucl in *;
  change IntDef.Z.even with Z.even in *.

Lemma digits2_size (p : positive) : digits2_pos p = Pos.size p.
Proof. induction p; simpl; congruence. Qed.

Lemma digits2_iter_xO (p k : positive) :
  digits2_pos (Pos.iter xO p k) = (digits2_pos p + k)%positive.
Proof.
  induction k using Pos.peano_ind.
  - simpl. lia.
  - rewrite Pos.iter_succ. simpl. rewrite IHk. lia.
Qed.

Lemma digits2_bound (p : positive) :
  Zpos p < 2 ^ 53 -> Zpos (digits2_pos p) <= 53.
Proof.
  intro H. rewrite digits2_size.
  pose proof (Pos.size_le p) as Hle.
  destruct (Z_le_gt_dec (Zpos (Pos.size p)) 53) as [|Hgt]; [assumption|exfalso].
  assert (H0 : 2 ^ 54 <= 2 ^ Zpos (Pos.size p)) by (apply Z.pow_le_mono_r; lia).
  assert (H1 : Zpos (2 ^ Pos.size p) <= Zpos (p~0))
    by (apply Pos2Z.pos_le_pos; exact Hle).
  rewrite Pos2Z.inj_pow in H1. change (Zpos 2) with 2 in H1.
  rewrite Pos2Z.inj_xO in H1.
  change (2 ^ 54) with (2 * 2 ^ 53) in H0. lia.
Qed.

Lemma shr_fexp_id (m e : Z) (l : location) :
  fexp Py.prec Py.emax (Zdigits2 m + e) - e = 0 ->
  shr_fexp Py.prec Py.emax m e l = (shr_record_of_loc m l, e).
Proof. unfold shr_fexp. std_Z. intros ->. reflexivity. Qed.

Lemma binary_round_aux_id (m : positive) (e : Z) :
  fexp Py.prec Py.emax (Zpos (digits2_pos m) + e) - e = 0 ->
  e <= Py.emax - Py.prec ->
  binary_round_aux Py.prec Py.emax false (Zpos m) e loc_Exact = S754_finite false m e.
Proof.
  intros Hz He. unfold binary_round_aux.
  rewrite shr_fexp_id by exact Hz.
  cbn [shr_record_of_loc shr_m loc_of_shr_record round_nearest_even].
  rewrite shr_fexp_id by exact Hz.
  cbn [shr_record_of_loc shr_m]. std_Z.
  apply Z.leb_le in He. now rewrite He.
Qed.

(** An int below 2^53 converts to a finite double. *)
Lemma float_of_pos_finite (p : positive) :
  Zpos p < 2 ^ 53 ->
  exists m e, Py.float_of_Z (Zpos p) = S754_finite false m e.
Proof.
  intro H. apply digits2_bound in H.
  unfold Py.float_of_Z, binary_normalize, binary_round. std_Z.
  assert (Hf : fexp Py.prec Py.emax (Zpos (digits2_pos p) + 0)
               = Zpos (digits2_pos p) - 53).
  { unfold fexp, emin, Py.prec, Py.emax. lia. }
  rewrite Hf. unfold shl_align. std_Z.
  destruct (Zpos (digits2_pos p) - 53 - 0) eqn:Hs; try lia.
  - exists p, 0. apply binary_round_aux_id.
    + rewrite Hf. lia.
    + unfold Py.prec, Py.emax. lia.
  - exists (Pos.iter xO p p0), (Zpos (digits2_pos p) - 53).
    apply binary_round_aux_id.
    + rewrite digits2_iter_xO.
      unfold fexp, emin, Py.prec, Py.emax. lia.
    + unfold Py.prec, Py.emax. lia.
Qed.

(** A finite double divided by itself is [1.0]. *)
Lemma SFdiv_same (m : positive) (e : Z) :
  SFdiv Py.prec Py.emax (S754_finite false m e) (S754_finite false m e) = Py.one.
Proof.
  unfold SFdiv, SFdiv_core_binary. std_Z.
  replace (Zdigits2 (Zpos m) + e - (Zdigits2 (Zpos m) + e)) with 0 by lia.
  replace (e - e) with 0 by lia.
  change (Z.min (fexp Py.prec Py.emax 0) 0) with (-53).
  change (0 - -53) with 53.
  cbv beta iota zeta.
  rewrite Z.shiftl_mul_pow2 by lia.
  assert (Hd : Z.div_eucl (Zpos m * 2 ^ 53) (Zpos m) = (2 ^ 53, 0)).
  { pose proof (Z.div_mul (2 ^ 53) (Zpos m) ltac:(lia)) as Hq.
    pose proof (Z.mod_mul (2 ^ 53) (Zpos m) ltac:(lia)) as Hr.
    rewrite Z.mul_comm. unfold Z.div, Z.modulo in Hq, Hr.
    destruct (Z.div_eucl (2 ^ 53 * Zpos m) (Zpos m)) as [q r].
    now subst. }
  rewrite Hd.
  assert (Hl : new_location (Zpos m) 0 = loc_Exact).
  { unfold new_location. now destruct (Z.even (Zpos m)). }
  rewrite Hl. vm_compute. reflexivity.
Qed.

(** [n / n * 100] is the double [100.0]. *)
Lemma truediv_same_times_100 (n : Z) :
  0 < n < 2 ^ 53 -> Py.mul_int (Py.truediv n n) 100 = Py.hundred.
Proof.
  intros [Hpos Hlt]. destruct n as [|p|p]; try lia.
  destruct (float_of_pos_finite p Hlt) as [m [e Hf]].
  unfold Py.truediv. rewrite Hf. rewrite SFdiv_same.
  vm_compute. reflexivity.
Qed.

End Binary64.

Lemma filter_all {A} (keep : A -> bool) (xs : list A) :
  (forall x, In x xs -> keep x = true) -> filter keep xs = xs.
Proof.
  induction xs as [|x xs IH]; intro H; simpl; [reflexivity|].
  rewrite (H x) by (left; reflexivity).
  f_equal. apply IH. intros y Hy. apply H. now right.
Qed.

(** C4: [calculate_coverage] returns the numbers of requirement, task,
    analysis and adr documents, the number of requirements with at least one
    implementing task, and as percentage the int 0 when there is no
    requirement, otherwise the double |C| / |R| * 100, which is 100.0 when
    every requirement has an implementing task. *)
Theorem coverage_counts_and_percentage (st : Interp) :
  let docs := documents st in
  exists cov,
    calculate_coverage st = (Return cov, st)
    /\ total_requirements cov = length (Spec.R docs)
    /\ total_tasks cov = length (filter (of_type task) (Py.values docs))
    /\ total_analyses cov = length (filter (of_type analysis) (Py.values docs))
    /\ total_adrs cov = length (filter (of_type adr) (Py.values docs))
    /\ requirements_with_tasks cov = length (Spec.C docs)
    /\ (Spec.R docs = [] -> coverage_percentage cov = Py.Int 0)
    /\ (Spec.R docs <> [] ->
        coverage_percentage cov
        = Py.Float (Py.mul_int
                      (Py.truediv (Z.of_nat (length (Spec.C docs)))
                                  (Z.of_nat (length (Spec.R docs))))
                      100))
    /\ (Spec.R docs <> [] ->
        (Z.of_nat (length (Spec.R docs)) < 2 ^ 53)%Z ->
        (forall r, In r (Spec.R docs) ->
                   Spec.implementingTasks docs (doc_id r) <> []) ->
        coverage_percentage cov = Py.Float Py.hundred).
Proof.
  intro docs. eexists. split; [apply calculate_coverage_run|].
  cbn [total_requirements total_tasks total_analyses total_adrs
       requirements_with_tasks coverage_percentage].
  fold docs. repeat (split; [reflexivity|]).
  split; [|split].
  - intros ->. reflexivity.
  - intro Hne. destruct (Spec.R docs); [contradiction|reflexivity].
  - intros Hne Hsmall Hall.
    assert (HC : Spec.C docs = Spec.R docs).
    { unfold Spec.C. apply filter_all. intros r Hr.
      specialize (Hall r Hr).
      destruct (Spec.implementingTasks docs (doc_id r)); [contradiction|reflexivity]. }
    rewrite HC.
    destruct (Spec.R docs) as [|r0 rs] eqn:HR; [contradiction|].
    cbn [truthy]. f_equal. apply truediv_same_times_100.
    split; [|exact Hsmall]. cbn [length]. lia.
Qed.

Lemma coverage_counts_and_percentage_witness :
  exists cov,
    calculate_coverage (Sample.loaded Sample.covered)
    = (Return cov, Sample.loaded Sample.covered)
    /\ total_requirements cov = 1
    /\ requirements_with_tasks cov = 1
    /\ coverage_percentage cov = Py.Float Py.hundred.
Proof.
  destruct (coverage_counts_and_percentage (Sample.loaded Sample.covered))
    as (cov & Hrun & HR & _ & _ & _ & HC & _ & _ & H100).
  exists cov. split; [exact Hrun|]. split; [exact HR|]. split; [exact HC|].
  apply H100.
  - vm_compute. discriminate.
  - vm_compute. reflexivity.
  - intros r Hr. vm_compute in Hr. destruct Hr as [<-|[]].
    vm_compute. discriminate.
Defined.

(** ** Loading never fails, and what it builds *)

Lemma for_each_run {A} (step : A -> Interp -> Interp) (body : A -> M unit)
    (xs : list A) :
  (forall x st, In x xs -> body x st = (Return tt, step x st)) ->
  forall st,
    for_each xs body st = (Return tt, fold_left (fun s x => step x s) xs st).
Proof.
  unfold for_each.
  induction xs as [|x xs IH]; intros Hbody st.
  - reflexivity.
  - simpl. unfold bind. rewrite Hbody by (left; reflexivity).
    apply IH. intros y s Hy. apply Hbody. now right.
Qed.

Lemma parse_links_run (fs : Fs.tree) (p : Fs.Path) (st : Interp) :
  parse_links fs p st
  = (Return (links_of fs p),
     mkInterp (documents st) (stdout st) (stderr st ++ warnings_of fs p)).
Proof.
  unfold parse_links, try_except, read_text, links_of, warnings_of, bind.
  destruct (Fs.read fs p) as [content|msg]; simpl.
  - rewrite app_nil_r. now destruct st.
  - reflexivity.
Qed.

Lemma extract_status_run (fs : Fs.tree) (p : Fs.Path) (st : Interp) :
  extract_status fs p st = (Return (status_of fs p), st).
Proof.
  unfold extract_status, try_except, read_text, status_of, bind.
  now destruct (Fs.read fs p).
Qed.

Lemma TDLDocument_init_run (fs : Fs.tree) (p : Fs.Path) (st : Interp) :
  TDLDocument_init fs p st
  = (Return (document_of fs p),
     mkInterp (documents st) (stdout st) (stderr st ++ warnings_of fs p)).
Proof.
  unfold TDLDocument_init, bind.
  rewrite parse_links_run, extract_status_run. reflexivity.
Qed.

Lemma load_file_run (fs : Fs.tree) (p : Fs.Path) (st : Interp) :
  load_file fs p st = (Return tt, after_file fs p st).
Proof.
  unfold load_file, after_file.
  destruct (skipped p); [reflexivity|].
  unfold bind. rewrite TDLDocument_init_run. reflexivity.
Qed.

Lemma load_documents_run (fs : Fs.tree) (repo_root : Fs.Path) (st : Interp) :
  load_documents fs repo_root st
  = (Return tt,
     fold_left (fun s p => after_file fs p s) (enumerated fs repo_root) st).
Proof.
  unfold load_documents, enumerated.
  generalize (doc_paths repo_root) as bps. intro bps. revert st.
  unfold for_each at 1.
  induction bps as [|bp bps IH]; intro st; [reflexivity|].
  cbn [for_ flat_map]. unfold bind at 1. rewrite fold_left_app.
  destruct (Fs.exists_ fs (fst bp)); cbn [negb].
  - assert (Hfiles :
      (if Str.contains "**" (snd bp) then Fs.glob fs (fst bp) (snd bp)
       else Fs.glob fs (fst bp) (snd bp)) = Fs.glob fs (fst bp) (snd bp))
      by now destruct (Str.contains _ _).
    rewrite Hfiles.
    rewrite (for_each_run (after_file fs))
      by (intros; apply load_file_run).
    apply IH.
  - apply IH.
Qed.

Lemma TraceabilityAnalyzer_init_run (fs : Fs.tree) (repo_root : Fs.Path)
    (st : Interp) :
  TraceabilityAnalyzer_init fs repo_root st
  = (Return tt,
     fold_left (fun s p => after_file fs p s) (enumerated fs repo_root)
               (mkInterp [] (stdout st) (stderr st))).
Proof. unfold TraceabilityAnalyzer_init. apply load_documents_run. Qed.

Lemma In_set {V} (k0 : string) (v0 : V) (d : Py.dict V) (k : string) (v : V) :
  In (k, v) (Py.set k0 v0 d) -> (k, v) = (k0, v0) \/ In (k, v) d.
Proof.
  induction d as [|[k' v'] d IH]; simpl.
  - intros [H|[]]. left. now symmetry.
  - destruct (String.eqb k0 k'); simpl.
    + intros [H|H]; [left; now symmetry | right; now right].
    + intros [H|H]; [right; now left|].
      destruct (IH H) as [H1|H1]; [now left | right; now right].
Qed.

Lemma get_set_same {V} (k : string) (v : V) (d : Py.dict V) :
  Py.get k (Py.set k v d) = Some v.
Proof.
  induction d as [|[k' v'] d IH]; simpl.
  - now rewrite String.eqb_refl.
  - destruct (String.eqb k k') eqn:E; simpl.
    + now rewrite String.eqb_refl.
    + now rewrite E.
Qed.

Lemma get_set_other {V} (k k0 : string) (v : V) (d : Py.dict V) :
  k <> k0 -> Py.get k (Py.set k0 v d) = Py.get k d.
Proof.
  intro Hne. induction d as [|[k' v'] d IH]; simpl.
  - apply String.eqb_neq in Hne. now rewrite Hne.
  - destruct (String.eqb k0 k') eqn:E; simpl.
    + apply String.eqb_eq in E. subst k'.
      apply String.eqb_neq in Hne. now rewrite Hne.
    + now rewrite IH.
Qed.

(** A property of the entries that every loaded file has holds of the whole
    corpus. *)
Lemma loaded_entries (fs : Fs.tree) (P : string -> TDLDocument -> Prop)
    (ps : list Fs.Path) :
  (forall p, In p ps -> skipped p = false ->
             P (extract_id (Fs.name p)) (document_of fs p)) ->
  forall st,
    (forall k d, In (k, d) (documents st) -> P k d) ->
    forall k d,
      In (k, d) (documents (fold_left (fun s p => after_file fs p s) ps st)) ->
      P k d.
Proof.
  induction ps as [|p ps IH]; intros Hps st Hst k d; simpl.
  - apply Hst.
  - apply IH.
    + intros q Hq. apply Hps. now right.
    + intros k' d'. unfold after_file.
      destruct (skipped p) eqn:Hskip; [apply Hst|].
      cbn [documents]. intro Hin. apply In_set in Hin.
      destruct Hin as [Heq|Hin]; [|now apply Hst].
      injection Heq as -> ->. apply Hps; [now left | exact Hskip].
Qed.

(** Every entry of the corpus of a fresh analyzer is the document of a file
    that was enumerated and not skipped, under that document's identifier. *)
Lemma corpus_entries (fs : Fs.tree) (repo_root : Fs.Path) (st : Interp)
    (k : string) (d : TDLDocument) :
  In (k, d) (documents (snd (TraceabilityAnalyzer_init fs repo_root st))) ->
  exists p, In p (enumerated fs repo_root) /\ skipped p = false
            /\ d = document_of fs p /\ k = doc_id d.
Proof.
  rewrite TraceabilityAnalyzer_init_run. cbn [snd].
  apply (loaded_entries fs
           (fun k d => exists p, In p (enumerated fs repo_root)
                                 /\ skipped p = false
                                 /\ d = document_of fs p /\ k = doc_id d)).
  - intros p Hp Hskip. exists p. now repeat split.
  - intros k' d' [].
Qed.

(** The error stream only grows while files are loaded. *)
Lemma stderr_grows (fs : Fs.tree) (ps : list Fs.Path) (st : Interp) (w : string) :
  In w (stderr st) ->
  In w (stderr (fold_left (fun s p => after_file fs p s) ps st)).
Proof.
  revert st. induction ps as [|p ps IH]; intros st Hw; simpl; [exact Hw|].
  apply IH. unfold after_file. destruct (skipped p); [exact Hw|].
  cbn [stderr]. apply in_or_app. now left.
Qed.

Lemma warning_printed (fs : Fs.tree) (ps : list Fs.Path) (p : Fs.Path)
    (w : string) :
  In p ps -> skipped p = false -> In w (warnings_of fs p) ->
  forall st, In w (stderr (fold_left (fun s q => after_file fs q s) ps st)).
Proof.
  induction ps as [|q ps IH]; intros Hp Hskip Hw st; [destruct Hp|].
  simpl. destruct Hp as [->|Hp].
  - apply stderr_grows. unfold after_file. rewrite Hskip.
    cbn [stderr]. apply in_or_app. now right.
  - now apply IH.
Qed.

(** The identifier of a loaded file stays a key of the corpus, and what is
    found under it is the document of a loaded file with that identifier. *)
Lemma key_stays (fs : Fs.tree) (ps : list Fs.Path) (k : string) :
  forall st,
    (exists q, Py.get k (documents st) = Some (document_of fs q)
               /\ extract_id (Fs.name q) = k) ->
    exists q, Py.get k (documents (fold_left (fun s p => after_file fs p s) ps st))
              = Some (document_of fs q)
              /\ extract_id (Fs.name q) = k.
Proof.
  induction ps as [|p ps IH]; intros st H; simpl; [exact H|].
  apply IH. unfold after_file. destruct (skipped p); [exact H|].
  cbn [documents].
  destruct (String.string_dec k (extract_id (Fs.name p))) as [->|Hne].
  - exists p. split; [apply get_set_same | reflexivity].
  - rewrite get_set_other by exact Hne. exact H.
Qed.

Lemma loaded_registered (fs : Fs.tree) (ps : list Fs.Path) (p : Fs.Path) :
  In p ps -> skipped p = false ->
  forall st,
  exists q,
    Py.get (extract_id (Fs.name p))
           (documents (fold_left (fun s x => after_file fs x s) ps st))
    = Some (document_of fs q)
    /\ extract_id (Fs.name q) = extract_id (Fs.name p).
Proof.
  induction ps as [|x ps IH]; intros Hp Hskip st; [destruct Hp|].
  simpl. destruct Hp as [->|Hp].
  - apply key_stays. unfold after_file. rewrite Hskip. cbn [documents].
    exists p. split; [apply get_set_same | reflexivity].
  - now apply IH.
Qed.

(** The last file loaded under an identifier is the one the corpus keeps. *)
Lemma last_loaded_kept (fs : Fs.tree) (ps : list Fs.Path) (k : string)
    (d : TDLDocument) :
  (forall q, In q ps -> skipped q = false -> extract_id (Fs.name q) <> k) ->
  forall st,
    Py.get k (documents st) = Some d ->
    Py.get k (documents (fold_left (fun s x => after_file fs x s) ps st))
    = Some d.
Proof.
  induction ps as [|x ps IH]; intros Hps st H; simpl; [exact H|].
  apply IH; [intros q Hq; apply Hps; now right|].
  unfold after_file. destruct (skipped x) eqn:Hskip; [exact H|].
  cbn [documents]. rewrite get_set_other; [exact H|].
  intro Heq. apply (Hps x); [now left | exact Hskip | now symmetry].
Qed.

(** C8: when reading a file raises, [TDLDocument] catches the error, prints
    a warning that names the path and returns the document with status
    "Unknown" and an empty link map; the loop registers it under its
    identifier; and the analyzer's construction always returns: its error
    stream holds the warning, the identifier is a key of the corpus, and the
    document is the one found there unless a later file has the same
    identifier. *)
Theorem unreadable_file_registered (fs : Fs.tree) (repo_root p : Fs.Path)
    (msg : string) (st : Interp) :
  Fs.read fs p = inr msg ->
  let warning := "Warning: Failed to parse " ++ Fs.str p ++ ": " ++ msg in
  let doc := mkDocument p (Fs.name p) (extract_id (Fs.name p))
               (extract_type (Fs.name p)) (mkLinks [] false) "Unknown" in
  TDLDocument_init fs p st
  = (Return doc, mkInterp (documents st) (stdout st) (stderr st ++ [warning]))
  /\ (skipped p = false ->
      exists st', load_file fs p st = (Return tt, st')
                  /\ Py.get (doc_id doc) (documents st') = Some doc)
  /\ exists st',
      TraceabilityAnalyzer_init fs repo_root st = (Return tt, st')
      /\ (In p (enumerated fs repo_root) -> skipped p = false ->
          In warning (stderr st')
          /\ Py.has (doc_id doc) (documents st') = true
          /\ forall before later,
               enumerated fs repo_root = (before ++ p :: later)%list ->
               (forall q, In q later -> skipped q = false ->
                          extract_id (Fs.name q) <> doc_id doc) ->
               Py.get (doc_id doc) (documents st') = Some doc).
Proof.
  intros Hread warning doc.
  assert (Hdoc : document_of fs p = doc).
  { unfold document_of, links_of, status_of. now rewrite Hread. }
  assert (Hwarn : warnings_of fs p = [warning]).
  { unfold warnings_of. now rewrite Hread. }
  split; [|split].
  - rewrite TDLDocument_init_run. now rewrite Hdoc, Hwarn.
  - intro Hskip. eexists. split; [apply load_file_run|].
    unfold after_file. rewrite Hskip. cbn [documents].
    rewrite Hdoc. apply get_set_same.
  - eexists. split; [apply TraceabilityAnalyzer_init_run|].
    intros Hin Hskip. split; [|split].
    + apply (warning_printed fs _ p); try assumption.
      rewrite Hwarn. now left.
    + unfold Py.has.
      destruct (loaded_registered fs _ p Hin Hskip
                  (mkInterp [] (stdout st) (stderr st))) as [q [Hq _]].
      cbn [doc_id doc]. now rewrite Hq.
    + intros before later Henum Hlater. rewrite Henum.
      rewrite fold_left_app. cbn [fold_left].
      apply last_loaded_kept; [exact Hlater|].
      unfold after_file at 1. rewrite Hskip. cbn [documents].
      rewrite Hdoc. apply get_set_same.
Qed.

Lemma unreadable_file_registered_witness :
  let p := Sample.doc "requirements" "FR-0001-first.md" in
  let st' := Sample.loaded Sample.tree in
  Fs.read Sample.tree p = inr Sample.bad_utf8
  /\ In ("Warning: Failed to parse "
         ++ "/home/kopi/docs/requirements/FR-0001-first.md: " ++ Sample.bad_utf8)
        (stderr st')
  /\ Py.get "FR-0001" (documents st')
     = Some (mkDocument p "FR-0001-first.md" "FR-0001" requirement
               (mkLinks [] false) "Unknown").
Proof.
  intros p st'.
  assert (Hread : Fs.read Sample.tree p = inr Sample.bad_utf8) by reflexivity.
  split; [exact Hread|].
  destruct (unreadable_file_registered Sample.tree Sample.root p
              Sample.bad_utf8 fresh Hread)
    as (_ & _ & st1 & Hrun & Hrest).
  assert (Hst : st1 = st').
  { unfold st', Sample.loaded. now rewrite Hrun. }
  rewrite Hst in Hrest.
  destruct Hrest as (Hw & _ & Hlast).
  - vm_compute. tauto.
  - reflexivity.
  - split; [exact Hw|].
    apply (Hlast [Sample.doc "analysis" "AN-0004-x.md";
                  Sample.doc "analysis" "T-0009-x.md";
                  Sample.doc "requirements" "FR-0002-later.md"]
                 [Sample.doc "requirements" "traceability.md";
                  Sample.doc "requirements" "NFR-0abc1-speed.md";
                  Sample.doc "adr" "ADR-0003-x.md";
                  Sample.task_file "T-0005-x" "plan.md";
                  Sample.task_file "templates" "plan.md";
                  Sample.task_file "T-0006-y" "design.md"]).
    + reflexivity.
    + intros q Hq Hskip.
      repeat (destruct Hq as [<-|Hq]; [try discriminate Hskip;
                                       vm_compute; discriminate|]).
      destruct Hq.
Defined.

(** ** Skipped files *)

Lemma append_assoc (a b c : string) : (a ++ b) ++ c = a ++ (b ++ c).
Proof. induction a as [|x a IH]; simpl; [reflexivity | now rewrite IH]. Qed.

Lemma prefix_append (n s : string) : String.prefix n (n ++ s) = true.
Proof.
  induction n as [|x n IH]; simpl.
  - now destruct s.
  - destruct (ascii_dec x x) as [_|Hne]; [exact IH | now elim Hne].
Qed.

Lemma contains_here (n h : string) :
  String.prefix n h = true -> Str.contains n h = true.
Proof. intro H. destruct h; cbn [Str.contains]; now rewrite H. Qed.

Lemma contains_after (n x h : string) :
  Str.contains n h = true -> Str.contains n (x ++ h) = true.
Proof.
  intro H. induction x as [|c x IH]; [exact H|].
  cbn [append Str.contains]. rewrite IH. apply orb_true_r.
Qed.

Lemma contains_middle (n x y : string) : Str.contains n (x ++ n ++ y) = true.
Proof. apply contains_after, contains_here, prefix_append. Qed.

Lemma joined_app (a b : Fs.Path) :
  Fs.joined (a ++ b)%list = Fs.joined a ++ Fs.joined b.
Proof.
  induction a as [|c a IH]; simpl; [reflexivity|].
  now rewrite IH, append_assoc.
Qed.

Lemma str_joined (p : Fs.Path) : p <> [] -> Fs.str p = Fs.joined p.
Proof. destruct p; [now intros [] | reflexivity]. Qed.

(** A component of a path is a part of its string. *)
Lemma component_in_str (c : string) (p : Fs.Path) :
  In c p -> Str.contains c (Fs.str p) = true.
Proof.
  intro Hin. destruct (in_split _ _ Hin) as [a [b ->]].
  rewrite str_joined by (now destruct a).
  rewrite joined_app. cbn [Fs.joined].
  change ("/" ++ c ++ Fs.joined b) with (String "/"%char (c ++ Fs.joined b)).
  apply contains_after. cbn [Str.contains].
  rewrite (contains_here c (c ++ Fs.joined b)); [apply orb_true_r|].
  apply prefix_append.
Qed.

(** A directory named [templates] on the way to a file puts [templates/]
    into the file's path string. *)
Lemma templates_in_str (p : Fs.Path) :
  In "templates" (Fs.parent p) -> Str.contains "templates/" (Fs.str p) = true.
Proof.
  intro Hin.
  assert (Hne : p <> []) by (intros ->; destruct Hin).
  destruct (in_split _ _ Hin) as [a [b Hsplit]].
  rewrite (app_removelast_last "" Hne). unfold Fs.parent in Hsplit.
  rewrite Hsplit. rewrite <- app_assoc. cbn [app].
  rewrite str_joined by (now destruct a).
  rewrite joined_app.
  destruct (b ++ [last p ""])%list as [|c rest] eqn:Hb;
    [now destruct b|].
  cbn [Fs.joined].
  change ("/" ++ "templates" ++ "/" ++ c ++ Fs.joined rest)
    with ("/" ++ "templates/" ++ (c ++ Fs.joined rest)).
  rewrite <- append_assoc. apply contains_middle.
Qed.

(** C9: a file whose path string contains [traceability.md], or which has a
    component of that name, or which lies under a directory named
    [templates], is skipped by the loop, which leaves the state as it is, and
    no document of the corpus comes from it, whatever collection lists it. *)
Theorem skipped_files_never_loaded (fs : Fs.tree) (repo_root p : Fs.Path)
    (st : Interp) :
  Str.contains "traceability.md" (Fs.str p) = true
  \/ In "traceability.md" p
  \/ In "templates" (Fs.parent p) ->
  skipped p = true
  /\ load_file fs p st = (Return tt, st)
  /\ forall k d,
      In (k, d) (documents (snd (TraceabilityAnalyzer_init fs repo_root st))) ->
      path d <> p.
Proof.
  intro H.
  assert (Hskip : skipped p = true).
  { unfold skipped. apply orb_true_iff.
    destruct H as [H|[H|H]].
    - now left.
    - left. now apply component_in_str.
    - right. now apply templates_in_str. }
  split; [exact Hskip|]. split.
  - unfold load_file. now rewrite Hskip.
  - intros k d Hin Hpath.
    destruct (corpus_entries _ _ _ _ _ Hin) as [q [_ [Hq [Hd _]]]].
    rewrite Hd in Hpath. cbn [document_of path] in Hpath. subst q.
    rewrite Hskip in Hq. discriminate.
Qed.

Lemma skipped_files_never_loaded_witness :
  (In (Sample.doc "requirements" "traceability.md")
      (enumerated Sample.tree Sample.root)
   /\ forall k d, In (k, d) (documents (Sample.loaded Sample.tree)) ->
                  path d <> Sample.doc "requirements" "traceability.md")
  /\ (In (Sample.task_file "templates" "plan.md")
         (enumerated Sample.tree Sample.root)
      /\ forall k d, In (k, d) (documents (Sample.loaded Sample.tree)) ->
                     path d <> Sample.task_file "templates" "plan.md").
Proof.
  split; (split; [vm_compute; tauto|]).
  - apply (skipped_files_never_loaded Sample.tree Sample.root
             (Sample.doc "requirements" "traceability.md") fresh).
    right. left. vm_compute. tauto.
  - apply (skipped_files_never_loaded Sample.tree Sample.root
             (Sample.task_file "templates" "plan.md") fresh).
    right. right. vm_compute. tauto.
Defined.

(** ** The files of the tasks collection *)

Lemma fnmatch_literal (pat : string) :
  Fs.literal pat = true -> forall s, Fs.fnmatch pat s = true -> s = pat.
Proof.
  induction pat as [|c pat IH]; simpl; intros Hlit s Hm.
  - now destruct s.
  - apply andb_true_iff in Hlit. destruct Hlit as [Hc Hlit].
    apply negb_true_iff in Hc. rewrite Hc in Hm.
    destruct s as [|d s]; [discriminate|].
    apply andb_true_iff in Hm. destruct Hm as [Hcd Hm].
    apply Ascii.eqb_eq in Hcd. subst d. f_equal. now apply IH.
Qed.

Lemma substring_whole (s : string) :
  String.substring 0 (String.length s) s = s.
Proof. induction s as [|c s IH]; simpl; [reflexivity | now rewrite IH]. Qed.

Lemma glob_deep_name (fs : Fs.tree) (base p : Fs.Path) (file : string) :
  Fs.literal file = true ->
  In p (Fs.glob fs base ("**/" ++ file)) -> Fs.name p = file.
Proof.
  intros Hlit Hin. unfold Fs.glob in Hin. cbv zeta in Hin.
  rewrite (prefix_append "**/" file) in Hin.
  assert (Hsub : String.substring 3 (String.length ("**/" ++ file) - 3)
                   ("**/" ++ file) = file).
  { cbn [append String.length Nat.sub String.substring].
    rewrite Nat.sub_0_r. apply substring_whole. }
  rewrite Hsub in Hin. apply filter_In in Hin.
  destruct Hin as [_ Hsel].
  apply andb_true_iff in Hsel. destruct Hsel as [_ Hm].
  now apply fnmatch_literal.
Qed.

Lemma tasks_file_name (fs : Fs.tree) (repo_root p : Fs.Path) :
  In p (tasks_files fs repo_root) ->
  Fs.name p = "plan.md" \/ Fs.name p = "design.md".
Proof.
  unfold tasks_files. intro Hin. apply in_app_or in Hin.
  destruct Hin as [Hin|Hin]; [left|right].
  - apply (glob_deep_name fs (Fs.child (Fs.child repo_root "docs") "tasks")
             p "plan.md"); [reflexivity | exact Hin].
  - apply (glob_deep_name fs (Fs.child (Fs.child repo_root "docs") "tasks")
             p "design.md"); [reflexivity | exact Hin].
Qed.

(** C2: the document of a file of the tasks collection has its file name,
    [plan.md] or [design.md], as identifier and [unknown] as type; in the
    corpus such documents stand under these two keys only, a later one in
    the place of an earlier one, and none has type [task]. *)
Theorem tasks_files_unknown (fs : Fs.tree) (repo_root p : Fs.Path)
    (st : Interp) :
  In p (tasks_files fs repo_root) ->
  (exists d st',
     TDLDocument_init fs p st = (Return d, st')
     /\ filename d = Fs.name p
     /\ doc_id d = filename d
     /\ (doc_id d = "plan.md" \/ doc_id d = "design.md")
     /\ doc_type d = unknown)
  /\ (forall k d,
        In (k, d) (documents (snd (TraceabilityAnalyzer_init fs repo_root st))) ->
        path d = p ->
        (k = "plan.md" \/ k = "design.md")
        /\ k = filename d /\ doc_type d = unknown /\ doc_type d <> task)
  /\ (forall q st0,
        In q (tasks_files fs repo_root) -> Fs.name q = Fs.name p ->
        skipped p = false -> skipped q = false ->
        exists st1 st2,
          load_file fs p st0 = (Return tt, st1)
          /\ load_file fs q st1 = (Return tt, st2)
          /\ Py.get (Fs.name p) (documents st2) = Some (document_of fs q)).
Proof.
  intro Hin. pose proof (tasks_file_name _ _ _ Hin) as Hname.
  assert (Hid : extract_id (Fs.name p) = Fs.name p)
    by (destruct Hname as [-> | ->]; reflexivity).
  assert (Hty : extract_type (Fs.name p) = unknown)
    by (destruct Hname as [-> | ->]; reflexivity).
  split; [|split].
  - eexists. eexists. split; [apply TDLDocument_init_run|].
    cbn [document_of filename doc_id doc_type].
    repeat split; try assumption. now rewrite Hid.
  - intros k d Hk Hpath.
    destruct (corpus_entries _ _ _ _ _ Hk) as [q [_ [_ [Hd Hkd]]]].
    rewrite Hd in Hpath. cbn [document_of path] in Hpath. subst q.
    rewrite Hkd, Hd. cbn [document_of filename doc_id doc_type].
    rewrite Hid, Hty. repeat split; try assumption. discriminate.
  - intros q st0 Hq Hsame Hskp Hskq. eexists. eexists.
    split; [apply load_file_run|]. split; [apply load_file_run|].
    unfold after_file at 1. rewrite Hskq. cbn [documents].
    rewrite Hsame, Hid. apply get_set_same.
Qed.

Lemma tasks_files_unknown_witness :
  let p := Sample.task_file "T-0005-x" "plan.md" in
  In p (tasks_files Sample.tree Sample.root)
  /\ exists d st',
       TDLDocument_init Sample.tree p fresh = (Return d, st')
       /\ doc_id d = "plan.md" /\ doc_type d = unknown.
Proof.
  intro p.
  assert (Hin : In p (tasks_files Sample.tree Sample.root))
    by (vm_compute; tauto).
  split; [exact Hin|].
  destruct (tasks_files_unknown Sample.tree Sample.root p fresh Hin)
    as [(d & st' & Hrun & Hfile & Hid & _ & Hty) _].
  exists d, st'. split; [exact Hrun|]. split; [|exact Hty].
  rewrite Hid, Hfile. reflexivity.
Defined.

(** ** Check mode *)

Lemma for_each_eprint (f : string -> string) (xs : list string) :
  forall st,
    for_each xs (fun x => eprint (f x)) st
    = (Return tt,
       mkInterp (documents st) (stdout st) (stderr st ++ map f xs)).
Proof.
  unfold for_each.
  induction xs as [|x xs IH]; intro st; simpl.
  - rewrite app_nil_r. now destruct st.
  - unfold bind, eprint at 1. rewrite IH. cbn [documents stdout stderr].
    now rewrite <- app_assoc.
Qed.

(** What [check_integrity] returns and prints. *)
Lemma check_integrity_run (st : Interp) :
  let orphan_reqs := Spec.orphanRequirements (documents st) in
  let orphan_tasks := Spec.orphanTasks (documents st) in
  check_integrity st
  = if truthy orphan_reqs || truthy orphan_tasks
    then (Return false,
          mkInterp (documents st) (stdout st)
            (stderr st
             ++ "Traceability gaps detected:"
                :: map (fun k => "  - " ++ k ++ ": No implementing task")
                       orphan_reqs
             ++ map (fun k => "  - " ++ k ++ ": No linked requirements")
                    orphan_tasks))
    else (Return true, st).
Proof.
  intros orphan_reqs orphan_tasks. unfold check_integrity.
  unfold bind at 1. rewrite find_orphan_requirements_run.
  unfold bind at 1. rewrite find_orphan_tasks_run.
  fold orphan_reqs orphan_tasks.
  destruct (truthy orphan_reqs || truthy orphan_tasks); [|reflexivity].
  unfold bind, eprint at 1.
  rewrite (for_each_eprint (fun k => "  - " ++ k ++ ": No implementing task")).
  rewrite (for_each_eprint (fun k => "  - " ++ k ++ ": No linked requirements")).
  cbn [documents stdout stderr ret].
  repeat rewrite <- app_assoc. reflexivity.
Qed.

Lemma truthy_false {A} (xs : list A) : truthy xs = false <-> xs = [].
Proof. destruct xs; simpl; split; intro H; try reflexivity; discriminate. Qed.

Lemma no_orphans_iff (st : Interp) :
  truthy (Spec.orphanRequirements (documents st))
  || truthy (Spec.orphanTasks (documents st)) = false
  <-> fst (find_orphan_requirements st) = Return []
      /\ fst (find_orphan_tasks st) = Return [].
Proof.
  rewrite find_orphan_requirements_run, find_orphan_tasks_run. cbn [fst].
  rewrite orb_false_iff, !truthy_false. split.
  - intros [-> ->]. now split.
  - intros [H1 H2]. injection H1 as ->. injection H2 as ->. now split.
Qed.

(** C7: [check_integrity] returns [True] exactly when both orphan lists are
    empty; in check mode, once the repository root is found, the process
    then prints the confirmation and ends with status 0, and otherwise ends
    with status 1 without it. *)
Theorem check_mode_exit_status (fs : Fs.tree) (cwd repo_root : Fs.Path)
    (gaps : bool) (st : Interp) :
  find_repo_root fs cwd = Some repo_root ->
  let loaded := snd (TraceabilityAnalyzer_init fs repo_root st) in
  let no_orphans :=
    fst (find_orphan_requirements loaded) = Return []
    /\ fst (find_orphan_tasks loaded) = Return [] in
  let run := main fs cwd gaps true st in
  (fst (check_integrity loaded) = Return true <-> no_orphans)
  /\ (fst (check_integrity loaded) = Return false <-> ~ no_orphans)
  /\ (no_orphans ->
      fst run = Return tt /\ exit_code (fst run) = 0%Z
      /\ stdout (snd run) = (stdout st ++ ["✓ Traceability check passed"])%list)
  /\ (~ no_orphans ->
      fst run = Raise (SystemExit 1) /\ exit_code (fst run) = 1%Z
      /\ stdout (snd run) = stdout st).
Proof.
  intros Hroot loaded no_orphans run.
  assert (Hrun : run = (let (r, st') := check_integrity loaded in
                        match r with
                        | Return true =>
                            print "✓ Traceability check passed" st'
                        | Return false => (Raise (SystemExit 1), st')
                        | Raise e => (Raise e, st')
                        end)).
  { unfold run, main. rewrite Hroot. unfold bind at 1.
    unfold loaded. rewrite TraceabilityAnalyzer_init_run. cbn [snd].
    unfold bind. destruct (check_integrity _) as [[[|]|e] st']; reflexivity. }
  pose proof (no_orphans_iff loaded) as Hiff. fold no_orphans in Hiff.
  pose proof (check_integrity_run loaded) as Hcheck. cbv zeta in Hcheck.
  assert (Hout : stdout loaded = stdout st).
  { unfold loaded. rewrite TraceabilityAnalyzer_init_run. cbn [snd].
    generalize (enumerated fs repo_root) as ps.
    assert (H : forall ps s,
              stdout (fold_left (fun s p => after_file fs p s) ps s) = stdout s).
    { induction ps as [|p ps IH]; intro s; simpl; [reflexivity|].
      rewrite IH. unfold after_file. now destruct (skipped p). }
    intro ps. now rewrite H. }
  destruct (truthy _ || truthy _) eqn:Hor.
  - assert (Hno : ~ no_orphans).
    { intro H. apply Hiff in H. discriminate. }
    rewrite Hrun, Hcheck. cbn [fst snd stdout exit_code].
    repeat split; try tauto; try discriminate; try exact Hout.
  - assert (Hyes : no_orphans) by now apply Hiff.
    rewrite Hrun, Hcheck. unfold print. cbn [fst snd stdout exit_code].
    rewrite Hout.
    repeat split; try tauto; try discriminate.
    all: apply Hyes.
Qed.

Lemma check_mode_exit_status_witness :
  (exit_code (fst (main Sample.covered Sample.root false true fresh)) = 0%Z
   /\ stdout (snd (main Sample.covered Sample.root false true fresh))
      = ["✓ Traceability check passed"])
  /\ (exit_code (fst (main Sample.tree Sample.root false true fresh)) = 1%Z
      /\ stdout (snd (main Sample.tree Sample.root false true fresh)) = []).
Proof.
  split.
  - destruct (check_mode_exit_status Sample.covered Sample.root Sample.root
                false fresh eq_refl) as (_ & _ & Hpass & _).
    destruct Hpass as (_ & Hcode & Hout).
    + split; reflexivity.
    + split; [exact Hcode | exact Hout].
  - destruct (check_mode_exit_status Sample.tree Sample.root Sample.root
                false fresh eq_refl) as (_ & _ & _ & Hfail).
    destruct Hfail as (_ & Hcode & Hout).
    + intros [H _]. vm_compute in H. discriminate.
    + split; [exact Hcode | exact Hout].
Defined.

(** ** The Links section *)

(** C1: on a Links section whose only marker is [Formal Requirements:
    FR-0001], [parse_links] returns the requirements list with FR-0001 in
    it twice, the pattern of [Requirements:] matching inside the longer
    marker; with both markers, the longer one first, the span of the
    shorter one is never read. *)
Theorem formal_requirements_read_twice :
  fst (parse_links [(Sample.plan, inl Sample.formal_only)] Sample.plan fresh)
  = Return (mkLinks [("requirements", ["FR-0001"; "FR-0001"])] false)
  /\ fst (parse_links [(Sample.plan, inl Sample.formal_first)] Sample.plan fresh)
     = Return (mkLinks [("requirements", ["FR-0001"; "FR-0001"])] false).
Proof. split; vm_compute; reflexivity. Qed.

(** The other order of the two markers, and a document without the
    heading. *)
Example requirements_then_formal :
  parse_links_text ("## Links" ++ nl ++ "- Requirements: FR-0002" ++ nl
                    ++ "- Formal Requirements: FR-0001" ++ nl)
  = mkLinks [("requirements", ["FR-0001"; "FR-0002"])] false.
Proof. vm_compute. reflexivity. Qed.

Example requirements_only :
  parse_links_text ("## Links" ++ nl ++ "Requirements: FR-0001")
  = mkLinks [("requirements", ["FR-0001"])] false.
Proof. vm_compute. reflexivity. Qed.

Example no_links_heading :
  parse_links_text ("# Title" ++ nl ++ "- Status: Draft" ++ nl)
  = mkLinks [] true.
Proof. vm_compute. reflexivity. Qed.

(** ** Listings *)

(** C6: in check mode the orphans are written to the error stream in the
    order of the corpus, with no sort; on the sample repository FR-0002
    comes before FR-0001, while the report of the same repository lists
    them sorted. *)
Theorem check_mode_lists_in_corpus_order :
  (forall st,
     truthy (Spec.orphanRequirements (documents st))
     || truthy (Spec.orphanTasks (documents st)) = true ->
     stderr (snd (check_integrity st))
     = (stderr st
        ++ "Traceability gaps detected:"
           :: map (fun k => ("  - " ++ k ++ ": No implementing task")%string)
                  (Spec.orphanRequirements (documents st))
        ++ map (fun k => ("  - " ++ k ++ ": No linked requirements")%string)
               (Spec.orphanTasks (documents st)))%list)
  /\ stderr (snd (main Sample.tree Sample.root false true fresh))
     = ["Warning: Failed to parse /home/kopi/docs/requirements/FR-0001-first.md: "
        ++ Sample.bad_utf8;
        "Traceability gaps detected:";
        "  - FR-0002: No implementing task";
        "  - FR-0001: No implementing task"]
  /\ stdout (snd (main Sample.tree Sample.root true false fresh))
     = ["Gaps:";
        "  ⚠ FR-0001: No implementing task (Status: Unknown)";
        "  ⚠ FR-0002: No implementing task (Status: Draft)";
        ""].
Proof.
  split; [|split; vm_compute; reflexivity].
  intros st Hor. pose proof (check_integrity_run st) as Hrun.
  cbv zeta in Hrun. rewrite Hor in Hrun. now rewrite Hrun.
Qed.

(** [sorted] puts a list in ascending order and keeps its elements. *)
Lemma insert_Sorted (x : string) (xs : list string) :
  Sorted (fun a b => Str.le a b = true) xs ->
  Sorted (fun a b => Str.le a b = true) (Py.insert Str.le x xs).
Proof.
  induction 1 as [|y ys Hs IH Hhd]; simpl.
  - repeat constructor.
  - destruct (Str.le x y) eqn:Hxy.
    + constructor; [now constructor | now constructor].
    + constructor; [exact IH|].
      assert (Hyx : Str.le y x = true).
      { unfold Str.le in *. destruct (String.leb_total x y) as [H|H];
          [congruence | exact H]. }
      destruct ys as [|z zs]; simpl.
      * now constructor.
      * destruct (Str.le x z); constructor; [exact Hyx|].
        now inversion Hhd.
Qed.

Lemma sorted_Sorted (xs : list string) :
  Sorted (fun a b => Str.le a b = true) (Py.sorted xs).
Proof.
  unfold Py.sorted, Py.sorted_by.
  induction xs as [|x xs IH]; simpl; [constructor | now apply insert_Sorted].
Qed.

Lemma insert_Permutation (x : string) (xs : list string) :
  Permutation (x :: xs) (Py.insert Str.le x xs).
Proof.
  induction xs as [|y ys IH]; simpl; [reflexivity|].
  destruct (Str.le x y); [reflexivity|].
  rewrite perm_swap. now constructor.
Qed.

Lemma sorted_Permutation (xs : list string) : Permutation xs (Py.sorted xs).
Proof.
  unfold Py.sorted, Py.sorted_by.
  induction xs as [|x xs IH]; simpl; [constructor|].
  rewrite <- insert_Permutation. now constructor.
Qed.

Lemma printed_nil (st : Interp) : printed [] st = st.
Proof. unfold printed. rewrite app_nil_r. now destruct st. Qed.

Lemma printed_printed (a b : list string) (st : Interp) :
  printed b (printed a st) = printed (a ++ b) st.
Proof. unfold printed. cbn [documents stdout stderr]. now rewrite app_assoc. Qed.

Lemma print_run (line : string) (st : Interp) :
  print line st = (Return tt, printed [line] st).
Proof. reflexivity. Qed.

Lemma bind_run {A B} (m : M A) (k : A -> M B) (v : A) (st st' : Interp) :
  m st = (Return v, st') -> bind m k st = k v st'.
Proof. intro H. unfold bind. now rewrite H. Qed.

Lemma for_each_lines {A} (lines : A -> list string) (body : A -> M unit)
    (xs : list A) (docs : Py.dict TDLDocument) :
  (forall x st, In x xs -> documents st = docs ->
                body x st = (Return tt, printed (lines x) st)) ->
  forall st, documents st = docs ->
    for_each xs body st = (Return tt, printed (flat_map lines xs) st).
Proof.
  unfold for_each.
  induction xs as [|x xs IH]; intros Hbody st Hdocs; simpl.
  - now rewrite printed_nil.
  - rewrite (bind_run _ _ tt st (printed (lines x) st))
      by (apply Hbody; [now left | exact Hdocs]).
    rewrite IH; [now rewrite printed_printed | | exact Hdocs].
    intros y s Hy. apply Hbody. now right.
Qed.

Lemma flat_map_singleton {A B} (f : A -> B) (xs : list A) :
  flat_map (fun x => [f x]) xs = map f xs.
Proof. induction xs as [|x xs IH]; simpl; [reflexivity | now rewrite IH]. Qed.

Lemma get_of_In {V} (k : string) (v : V) (d : Py.dict V) :
  In (k, v) d -> exists v', Py.get k d = Some v'.
Proof.
  induction d as [|[k' v'] d IH]; simpl; [intros []|].
  intros [H|H].
  - injection H as -> ->. rewrite String.eqb_refl. now exists v.
  - destruct (String.eqb k k'); [now exists v' | now apply IH].
Qed.

(** The three blocks of [print_status] only print. *)
Lemma print_status_coverage_run (st : Interp) :
  exists lines, print_status_coverage st = (Return tt, printed lines st).
Proof.
  unfold print_status_coverage.
  rewrite (bind_run _ _ tt st _ (print_run _ st)).
  rewrite (bind_run _ _ _ _ _ (calculate_coverage_run _)).
  repeat (erewrite bind_run by apply print_run).
  rewrite print_run. rewrite !printed_printed. eexists. reflexivity.
Qed.

Lemma print_status_gaps_run (gaps_only : bool) (st : Interp) :
  let orphan_reqs := Spec.orphanRequirements (documents st) in
  let orphan_tasks := Spec.orphanTasks (documents st) in
  let status_at k :=
    match Py.get k (documents st) with Some d => status d | None => "" end in
  print_status_gaps gaps_only st
  = (Return tt,
     printed
       (if truthy orphan_reqs || truthy orphan_tasks then
          "Gaps:"
          :: map (fun k => "  ⚠ " ++ k ++ ": No implementing task (Status: "
                           ++ status_at k ++ ")")
                 (Py.sorted orphan_reqs)
          ++ map (fun k => "  ⚠ " ++ k ++ ": No linked requirements")
                 (Py.sorted orphan_tasks)
          ++ [""]
        else if gaps_only then [] else ["✓ No gaps detected" ++ nl])
       st).
Proof.
  intros orphan_reqs orphan_tasks status_at. unfold print_status_gaps.
  rewrite (bind_run _ _ _ _ _ (find_orphan_requirements_run st)).
  rewrite (bind_run _ _ _ _ _ (find_orphan_tasks_run st)).
  fold orphan_reqs orphan_tasks.
  destruct (truthy orphan_reqs || truthy orphan_tasks).
  - rewrite (bind_run _ _ tt st _ (print_run _ st)).
    erewrite bind_run.
    2:{ apply (for_each_lines
                 (fun k => ["  ⚠ " ++ k ++ ": No implementing task (Status: "
                            ++ status_at k ++ ")"])
                 _ _ (documents st)); [|reflexivity].
        intros k s Hk Hdocs. unfold getitem_document, get_documents, bind.
        rewrite Hdocs. unfold status_at.
        assert (Hin : In k orphan_reqs).
        { eapply Permutation_in; [|exact Hk].
          apply Permutation_sym, sorted_Permutation. }
        unfold orphan_reqs, Spec.orphanRequirements in Hin.
        apply In_map_fst_filter in Hin. destruct Hin as [d [Hd _]].
        destruct (get_of_In _ _ _ Hd) as [d' ->]. reflexivity. }
    erewrite bind_run.
    2:{ apply (for_each_lines
                 (fun k => ["  ⚠ " ++ k ++ ": No linked requirements"])
                 _ _ (documents st)); [|reflexivity].
        intros k s _ _. reflexivity. }
    rewrite print_run, !printed_printed, !flat_map_singleton.
    cbn [app]. rewrite <- ?app_assoc. reflexivity.
  - destruct gaps_only; cbn [negb when].
    + unfold ret. now rewrite printed_nil.
    + apply print_run.
Qed.

Lemma print_status_by_type_run (st : Interp) :
  exists lines, print_status_by_type st = (Return tt, printed lines st).
Proof.
  unfold print_status_by_type.
  rewrite (bind_run _ _ tt st _ (print_run _ st)).
  unfold bind at 1, get_documents. cbn [documents printed].
  set (by_type := group_by_type (Py.values (documents st))).
  erewrite (for_each_lines
              (fun t =>
                 match Py.get (type_name t) by_type with
                 | Some ds =>
                     (nl ++ "  " ++ Py.title (type_name t) ++ "s:")
                     :: map (fun sc => "    " ++ fst sc ++ ": "
                                       ++ Py.str_nat (snd sc))
                            (Py.sorted_by Py.le_item (count_by_status ds))
                 | None => []
                 end)
              _ _ (documents st)); [| |reflexivity].
  - fold (printed ["Status by Document Type:"] st).
    rewrite printed_printed. eexists. reflexivity.
  - intros t s _ Hdocs. destruct (Py.get (type_name t) by_type) as [ds|].
    + rewrite (bind_run _ _ tt s _ (print_run _ s)).
      erewrite (for_each_lines
                  (fun sc => ["    " ++ fst sc ++ ": " ++ Py.str_nat (snd sc)])
                  _ _ (documents s)); [| |reflexivity].
      * now rewrite printed_printed, flat_map_singleton.
      * intros sc s' _ _. reflexivity.
    + unfold ret. now rewrite printed_nil.
Qed.

(** X1: in both report modes [print_status] never raises and lists the orphan
    requirements, then the orphan tasks, each sorted by identifier; in
    gaps-only mode it prints nothing else, and nothing at all when there is
    no orphan. *)
Theorem report_lists_orphans_sorted (gaps_only : bool) (st : Interp) :
  let orphan_reqs := Spec.orphanRequirements (documents st) in
  let orphan_tasks := Spec.orphanTasks (documents st) in
  let status_at k :=
    match Py.get k (documents st) with Some d => status d | None => "" end in
  let gaps :=
    if truthy orphan_reqs || truthy orphan_tasks then
      "Gaps:"
      :: map (fun k => "  ⚠ " ++ k ++ ": No implementing task (Status: "
                       ++ status_at k ++ ")")
             (Py.sorted orphan_reqs)
      ++ map (fun k => "  ⚠ " ++ k ++ ": No linked requirements")
             (Py.sorted orphan_tasks)
      ++ [""]
    else if gaps_only then [] else ["✓ No gaps detected" ++ nl] in
  exists before after,
    print_status gaps_only st
    = (Return tt, printed (before ++ gaps ++ after) st)
    /\ (gaps_only = true -> before = [] /\ after = [])
    /\ Sorted (fun a b => Str.le a b = true) (Py.sorted orphan_reqs)
    /\ Permutation orphan_reqs (Py.sorted orphan_reqs)
    /\ Sorted (fun a b => Str.le a b = true) (Py.sorted orphan_tasks)
    /\ Permutation orphan_tasks (Py.sorted orphan_tasks).
Proof.
  intros orphan_reqs orphan_tasks status_at gaps.
  pose proof (print_status_gaps_run gaps_only) as Hgaps. cbv zeta in Hgaps.
  unfold print_status. destruct gaps_only; cbn [negb when].
  - exists [], []. split; [|repeat split;
      auto using sorted_Sorted, sorted_Permutation].
    rewrite (bind_run _ _ tt st st eq_refl).
    rewrite (bind_run _ _ _ _ _ (Hgaps st)).
    unfold ret. cbn [app]. now rewrite app_nil_r.
  - destruct (print_status_coverage_run st) as [before Hbefore].
    destruct (print_status_by_type_run (printed gaps (printed before st)))
      as [after Hafter].
    exists before, after. split; [|repeat split;
      auto using sorted_Sorted, sorted_Permutation; discriminate].
    rewrite (bind_run _ _ _ _ _ Hbefore).
    rewrite (bind_run _ _ _ _ _ (Hgaps (printed before st))).
    change (documents (printed before st)) with (documents st).
    change (print_status_by_type (printed gaps (printed before st))
            = (Return tt, printed (before ++ gaps ++ after) st)).
    rewrite Hafter. now rewrite !printed_printed, app_assoc.
Qed.

(** ** The matcher on literal text *)

Lemma lit_cons (c : ascii) (w : string) (k : cursor -> option cursor)
    (s : cursor) :
  run (lit (String c w)) k s
  = match rest s with
    | String x rest' =>
        if Ascii.eqb c x then run (lit w) k (advance x rest' s) else None
    | EmptyString => None
    end.
Proof.
  destruct w as [|d w]; cbn [lit run Str.chr]; reflexivity.
Qed.

(** A literal matches only where the text starts with it. *)
Lemma lit_needs_prefix (w : string) (k : cursor -> option cursor) :
  forall s, String.prefix w (rest s) = false -> run (lit w) k s = None.
Proof.
  induction w as [|c w IH]; intros s Hp.
  - destruct (rest s); discriminate.
  - rewrite lit_cons. destruct (rest s) as [|x rest'] eqn:Hrest; [reflexivity|].
    cbn [String.prefix] in Hp.
    destruct (ascii_dec c x) as [->|Hne].
    + rewrite Ascii.eqb_refl. apply IH. exact Hp.
    + apply Ascii.eqb_neq in Hne. now rewrite Hne.
Qed.

(** A search fails when no position of the text passes the test that the
    pattern needs. *)
Lemma scan_none (r : regex) (text : string) (needle : string) :
  (forall s, String.prefix needle (rest s) = false -> run r Some s = None) ->
  forall rest0 s,
    rest s = rest0 -> Str.contains needle rest0 = false ->
    scan r text rest0 s = None.
Proof.
  intros Hneeds.
  induction rest0 as [|x rest' IH]; intros s Hrest Hc.
  - cbn [scan]. unfold match_at.
    rewrite Hneeds; [reflexivity|].
    cbn [rest]. rewrite Hrest. cbn [Str.contains] in Hc.
    now apply orb_false_iff in Hc.
  - cbn [scan]. cbn [Str.contains] in Hc. apply orb_false_iff in Hc.
    destruct Hc as [Hp Hc]. unfold match_at.
    rewrite Hneeds by (cbn [rest]; now rewrite Hrest).
    apply IH; [reflexivity | exact Hc].
Qed.

(** X2: a document without the text [## Links] has an empty link map (the
    [defaultdict] that [parse_links] starts from). *)
Theorem no_heading_no_links (content : string) :
  Str.contains "## Links" content = false ->
  parse_links_text content = mkLinks [] true.
Proof.
  intro Hc. unfold parse_links_text, search.
  rewrite (scan_none LINKS_SECTION content "## Links"); try reflexivity;
    try exact Hc.
  intros s Hp. unfold LINKS_SECTION. cbn [seq run].
  now apply lit_needs_prefix.
Qed.

Lemma no_heading_no_links_witness :
  parse_links_text ("# Title" ++ nl ++ "- Requirements: FR-0001")
  = mkLinks [] true.
Proof. apply no_heading_no_links. reflexivity. Defined.

(** X3: a document without the text [- Status:] has the status "Unknown". *)
Theorem no_status_line_unknown (content : string) :
  Str.contains "- Status:" content = false ->
  extract_status_text content = "Unknown".
Proof.
  intro Hc. unfold extract_status_text, search.
  rewrite (scan_none STATUS_LINE content "- Status:"); try reflexivity;
    try exact Hc.
  intros s Hp. unfold STATUS_LINE. cbn [seq run].
  destruct (at_bol true s); [|reflexivity].
  now apply lit_needs_prefix.
Qed.

Lemma no_status_line_unknown_witness :
  extract_status_text ("# FR-0002" ++ nl ++ "Status: Draft") = "Unknown".
Proof. apply no_status_line_unknown. reflexivity. Defined.

(** A search finds a match when the pattern matches at some position. *)
Lemma scan_some (r : regex) (text : string) (n : nat) :
  forall rest0 s,
    rest s = rest0 ->
    match_at r text (forward n s) <> None ->
    scan r text rest0 s <> None.
Proof.
  induction n as [|n IH]; intros rest0 s Hrest Hm.
  - cbn [forward] in Hm. destruct rest0; cbn [scan];
      destruct (match_at r text s); congruence.
  - destruct rest0 as [|x rest'].
    + cbn [forward] in Hm. rewrite Hrest in Hm.
      cbn [scan]. destruct (match_at r text s); congruence.
    + cbn [forward] in Hm. rewrite Hrest in Hm.
      cbn [scan]. destruct (match_at r text s); [discriminate|].
      now apply IH.
Qed.

Lemma lit_app (a b : string) (k : cursor -> option cursor) :
  forall s, run (lit (a ++ b)) k s = run (lit a) (run (lit b) k) s.
Proof.
  induction a as [|c a IH]; intro s.
  - reflexivity.
  - cbn [append]. rewrite !lit_cons.
    destruct (rest s) as [|x rest']; [reflexivity|].
    destruct (Ascii.eqb c x); [apply IH | reflexivity].
Qed.

(** After a literal the continuation runs as many characters further on as
    the literal is long. *)
Lemma lit_run (w : string) (k : cursor -> option cursor) (res : cursor) :
  forall s,
    run (lit w) k s = Some res -> k (forward (String.length w) s) = Some res.
Proof.
  induction w as [|c w IH]; intros s H.
  - exact H.
  - rewrite lit_cons in H. cbn [String.length forward].
    destruct (rest s) as [|x rest']; [discriminate|].
    destruct (Ascii.eqb c x); [now apply IH | discriminate].
Qed.

Lemma forward_caps (n : nat) (cs : list (nat * (nat * nat))) :
  forall s,
    forward n (mkCursor (pos s) (prev s) (rest s) cs)
    = mkCursor (pos (forward n s)) (prev (forward n s)) (rest (forward n s)) cs.
Proof.
  induction n as [|n IH]; intro s; [reflexivity|].
  cbn [forward rest]. destruct (rest s) as [|x rest'] eqn:Hrest.
  - cbn [pos prev rest]. now rewrite Hrest.
  - apply (IH (advance x rest' s)).
Qed.

(** Where the pattern of [Formal Requirements:] matches, the pattern of
    [Requirements:] matches seven characters further on. *)
Lemma formal_then_requirements (text : string) (s : cursor) :
  match_at FORMAL_REQUIREMENTS text s <> None ->
  match_at REQUIREMENTS text (forward 7 s) <> None.
Proof.
  unfold match_at.
  destruct (run FORMAL_REQUIREMENTS Some _) as [res|] eqn:Hf; [|congruence].
  intros _.
  unfold FORMAL_REQUIREMENTS, category in Hf. cbn [seq run] in Hf.
  change (lit "Formal Requirement") with (lit ("Formal " ++ "Requirement")) in Hf.
  rewrite lit_app in Hf. apply lit_run in Hf.
  change (String.length "Formal ") with 7 in Hf.
  rewrite forward_caps in Hf.
  unfold REQUIREMENTS, category. cbn [seq run].
  now rewrite Hf.
Qed.

(** The entries that the later patterns add leave the requirements list as
    the first two patterns made it. *)
Lemma extend_other (k k' : string) (ids : list string)
    (d : Py.dict (list string)) :
  k <> k' -> Py.get k (extend k' ids d) = Py.get k d.
Proof.
  intro Hne. unfold extend.
  destruct (Py.get k' d); now apply get_set_other.
Qed.

Lemma extend_same (k : string) (ids : list string) (d : Py.dict (list string)) :
  Py.get k (extend k ids d)
  = Some (match Py.get k d with Some old => old | None => [] end ++ ids)%list.
Proof. unfold extend. destruct (Py.get k d); apply get_set_same. Qed.

Lemma scan_found (r : regex) (text : string) (m : match_object) :
  forall rest0 s,
    rest s = rest0 -> scan r text rest0 s = Some m ->
    exists n, match_at r text (forward n s) = Some m.
Proof.
  induction rest0 as [|x rest' IH]; intros s Hrest H; cbn [scan] in H.
  - exists 0. cbn [forward]. destruct (match_at r text s); [exact H|discriminate].
  - destruct (match_at r text s) eqn:Hat.
    + exists 0. cbn [forward]. now rewrite Hat.
    + destruct (IH (advance x rest' s) eq_refl H) as [n Hn]. exists (S n).
      cbn [forward]. now rewrite Hrest.
Qed.

Lemma forward_forward (a b : nat) :
  forall s, forward a (forward b s) = forward (b + a) s.
Proof.
  induction b as [|b IH]; intro s; [reflexivity|].
  cbn [Nat.add forward]. destruct (rest s) as [|x rest'] eqn:Hrest.
  - destruct a; cbn [forward]; now rewrite ?Hrest.
  - apply IH.
Qed.

Lemma other_category_step (r : regex) (k : string) (content : string)
    (d : Py.dict (list string)) :
  "requirements" <> k ->
  Py.get "requirements"
    (match search r content with
     | Some m => extend k (findall ID_TOKEN (group 1 m)) d
     | None => d
     end)
  = Py.get "requirements" d.
Proof.
  intro Hne. destruct (search r content); [now apply extend_other | reflexivity].
Qed.

(** X4: whenever the marker [Formal Requirements:] is found in a Links section,
    the pattern of [Requirements:] finds a span too, and the requirements
    list is made of the identifiers of both spans. *)
Theorem formal_marker_read_by_both_patterns (links_content : string)
    (m : match_object) :
  search FORMAL_REQUIREMENTS links_content = Some m ->
  exists m',
    search REQUIREMENTS links_content = Some m'
    /\ Py.get "requirements" (collect_links links_content [])
       = Some (findall ID_TOKEN (group 1 m)
               ++ findall ID_TOKEN (group 1 m'))%list.
Proof.
  intro Hm.
  assert (Hreq : search REQUIREMENTS links_content <> None).
  { unfold search in *.
    destruct (scan_found _ _ _ _ (start_of links_content) eq_refl Hm)
      as [n Hat].
    apply (scan_some _ _ (n + 7)); [reflexivity|].
    rewrite <- forward_forward. apply formal_then_requirements.
    now rewrite Hat. }
  destruct (search REQUIREMENTS links_content) as [m'|] eqn:Hm';
    [|congruence].
  exists m'. split; [reflexivity|].
  unfold collect_links, patterns. cbn [fold_left fst snd].
  rewrite !other_category_step by discriminate.
  rewrite Hm, Hm'. rewrite extend_same, extend_same. reflexivity.
Qed.

Lemma formal_marker_read_by_both_patterns_witness :
  Py.get "requirements"
    (collect_links ("- Formal Requirements: FR-0001" ++ nl
                    ++ "- Requirements: FR-0002") [])
  = Some ["FR-0001"; "FR-0001"].
Proof.
  destruct (formal_marker_read_by_both_patterns
              ("- Formal Requirements: FR-0001" ++ nl
               ++ "- Requirements: FR-0002")
              (mkMatch ("- Formal Requirements: FR-0001" ++ nl
                        ++ "- Requirements: FR-0002") 2 30 [(1, (23, 30))])
              eq_refl) as [m' [Hm' Hget]].
  vm_compute in Hm'. injection Hm' as <-. exact Hget.
Defined.

(** ** The matcher along the text *)

Lemma length_append (a b : string) :
  String.length (a ++ b) = String.length a + String.length b.
Proof. induction a as [|x a IH]; simpl; [reflexivity | now rewrite IH]. Qed.

Lemma append_nil_r (a : string) : a ++ "" = a.
Proof. induction a as [|x a IH]; simpl; [reflexivity | now rewrite IH]. Qed.

Lemma forward_rest (w : string) :
  forall tail s,
    rest s = w ++ tail ->
    rest (forward (String.length w) s) = tail
    /\ pos (forward (String.length w) s) = pos s + String.length w
    /\ caps (forward (String.length w) s) = caps s.
Proof.
  induction w as [|x w IH]; intros tail s Hrest.
  - cbn [String.length forward]. repeat split; [exact Hrest | lia].
  - cbn [String.length forward]. rewrite Hrest. cbn [append].
    destruct (IH tail (advance x (w ++ tail) s) eq_refl) as (H1 & H2 & H3).
    repeat split; [exact H1 | rewrite H2; cbn [advance pos]; lia | exact H3].
Qed.


Lemma substring_middle (a w b : string) :
  String.substring (String.length a) (String.length w) (a ++ w ++ b) = w.
Proof.
  induction a as [|x a IH]; cbn [String.length append String.substring].
  - induction w as [|y w IHw]; cbn [String.length append String.substring].
    + now destruct b.
    + now rewrite IHw.
  - exact IH.
Qed.


(** A greedy repetition takes the whole run of its class when the rest of
    the pattern matches after it. *)
Lemma greedy_takes_all (c : ascii -> bool) (k : cursor -> option cursor)
    (res : cursor) (w : string) :
  forall tail s lo,
    rest s = w ++ tail ->
    all_of c w = true -> stops c tail = true ->
    lo <= String.length w ->
    k (forward (String.length w) s) = Some res ->
    repeat_class c true k lo None (w ++ tail) s = Some res.
Proof.
  induction w as [|x w IH]; intros tail s lo Hrest Hall Hstop Hlo Hk.
  - cbn [String.length forward] in Hk. cbn [String.length] in Hlo.
    assert (lo = 0) by lia. subst lo. cbn [append].
    destruct tail as [|y tail]; cbn [repeat_class hi_zero Nat.eqb].
    + now rewrite Hk.
    + cbn [stops] in Hstop. apply negb_true_iff in Hstop.
      now rewrite Hstop, Hk.
  - cbn [all_of] in Hall. apply andb_true_iff in Hall.
    destruct Hall as [Hx Hall].
    cbn [append repeat_class hi_zero option_map]. rewrite Hx.
    rewrite (IH tail (advance x (w ++ tail) s) (Nat.pred lo)); trivial.
    + cbn [String.length] in Hlo. lia.
    + cbn [String.length forward] in Hk. now rewrite Hrest in Hk.
Qed.

(** What a repetition that matched has read. *)
Lemma repeat_sound (c : ascii -> bool) (greedy : bool)
    (k : cursor -> option cursor) (res : cursor) :
  forall rest0 s lo hi,
    rest s = rest0 ->
    repeat_class c greedy k lo hi rest0 s = Some res ->
    exists w tail,
      rest0 = w ++ tail /\ all_of c w = true /\ lo <= String.length w
      /\ k (forward (String.length w) s) = Some res.
Proof.
  induction rest0 as [|x rest' IH]; intros s lo hi Hrest H.
  - exists "", "". cbn [repeat_class] in H.
    assert (Hs : (if Nat.eqb lo 0 then k s else None) = Some res).
    { destruct greedy, (hi_zero hi), (Nat.eqb lo 0); try destruct (k s);
        congruence. }
    destruct (Nat.eqb_spec lo 0); [|discriminate].
    subst lo. repeat split; [lia | exact Hs].
  - cbn [repeat_class] in H.
    set (stop := if Nat.eqb lo 0 then k s else None) in H.
    set (more := if hi_zero hi then None
                 else if c x
                      then repeat_class c greedy k (Nat.pred lo)
                             (option_map Nat.pred hi) rest'
                             (advance x rest' s)
                      else None) in H.
    assert (Hcases : stop = Some res \/ more = Some res).
    { destruct greedy; destruct more, stop; try congruence; auto. }
    destruct Hcases as [Hs|Hm].
    + exists "", (String x rest'). unfold stop in Hs.
      destruct (Nat.eqb_spec lo 0); [|discriminate].
      subst lo. repeat split; [lia | exact Hs].
    + unfold more in Hm. destruct (hi_zero hi); [discriminate|].
      destruct (c x) eqn:Hx; [|discriminate].
      destruct (IH (advance x rest' s) _ _ eq_refl Hm)
        as (w & tail & -> & Hall & Hlo & Hk).
      exists (String x w), tail. cbn [append all_of String.length forward].
      rewrite Hx, Hall, Hrest. repeat split; [lia | exact Hk].
Qed.

(** ** Identifiers and types from file names *)

Lemma non_empty_length (w : string) : w <> "" -> 1 <= String.length w.
Proof. destruct w; [congruence | simpl; lia]. Qed.

Lemma extract_id_on_name (U V tail : string) :
  U <> "" -> all_of Str.is_upper U = true ->
  V <> "" -> all_of not_hyphen V = true ->
  stops not_hyphen tail = true ->
  extract_id (U ++ "-" ++ V ++ tail) = U ++ "-" ++ V.
Proof.
  intros HU HUall HV HVall Hstop.
  set (f := U ++ "-" ++ V ++ tail).
  unfold extract_id, match_, match_at, ID_HEAD.
  cbn [seq run start_of pos prev rest at_bol].
  set (K := fun s' : cursor => Some (set_cap 1 0 (pos s') s')).
  set (s0 := mkCursor 0 None f []).
  destruct (forward_rest U ("-" ++ V ++ tail) s0 eq_refl) as (Hr1 & Hp1 & _).
  set (s1 := forward (String.length U) s0) in *.
  set (s2 := advance "-" (V ++ tail) s1).
  destruct (forward_rest V tail s2 eq_refl) as (Hr3 & Hp3 & _).
  set (s3 := forward (String.length V) s2) in *.
  unfold plus at 1. cbn [run rest]. fold f.
  change f with (U ++ "-" ++ V ++ tail) at 1.
  rewrite (greedy_takes_all Str.is_upper _ (set_cap 1 0 (pos s3) s3) U
             ("-" ++ V ++ tail) s0 1); trivial.
  - cbn [group m_caps caps set_cap get_cap Nat.eqb m_string slice].
    unfold slice. rewrite Nat.sub_0_r, Hp3. cbn [s2 advance pos].
    rewrite Hp1. cbn [s0 pos].
    replace (S (0 + String.length U) + String.length V)
      with (String.length (U ++ "-" ++ V))
      by (rewrite !length_append; simpl; lia).
    assert (E : U ++ "-" ++ V ++ tail = (U ++ "-" ++ V) ++ tail)
      by (now rewrite append_assoc).
    rewrite E. apply (substring_middle "" (U ++ "-" ++ V) tail).
  - now apply non_empty_length.
  - fold s1. cbn [run]. rewrite Hr1. cbn [append Str.chr].
    rewrite Ascii.eqb_refl. fold s2. unfold plus. cbn [run rest s2 advance].
    apply (greedy_takes_all _ K _ V tail s2 1); trivial.
    now apply non_empty_length.
Qed.

(** X5: a file name made of capital letters, a hyphen and a part without
    hyphen, followed by nothing or by a hyphen and more, has these first
    two parts as identifier: FR-0001 for FR-0001-some-title.md, and the
    whole name, extension included, for FR-0001.md. *)
Theorem extract_id_of_name (U V tail : string) :
  U <> "" -> all_of Str.is_upper U = true ->
  V <> "" -> all_of not_hyphen V = true ->
  stops not_hyphen tail = true ->
  extract_id (U ++ "-" ++ V ++ tail) = U ++ "-" ++ V.
Proof. apply extract_id_on_name. Qed.

Lemma extract_id_of_name_witness :
  extract_id ("FR" ++ "-" ++ "0001" ++ "-some-title.md") = "FR" ++ "-" ++ "0001"
  /\ extract_id ("FR" ++ "-" ++ "0001.md" ++ "") = "FR" ++ "-" ++ "0001.md".
Proof.
  split; apply extract_id_of_name; try reflexivity; discriminate.
Defined.

(** Where [extract_id] does not fall back on the file name, the name starts
    with capital letters, a hyphen and a part without hyphen, and these are
    the identifier. *)
Lemma extract_id_shape (f : string) :
  extract_id f = f
  \/ exists U V tail,
       f = U ++ "-" ++ V ++ tail
       /\ U <> "" /\ all_of Str.is_upper U = true
       /\ V <> "" /\ all_of not_hyphen V = true
       /\ extract_id f = U ++ "-" ++ V.
Proof.
  unfold extract_id.
  destruct (match_ ID_HEAD f) as [m|] eqn:Hm; [right | now left].
  unfold match_, match_at, ID_HEAD in Hm.
  cbn [seq run start_of pos prev rest at_bol] in Hm.
  set (K := fun s' : cursor => Some (set_cap 1 0 (pos s') s')) in Hm.
  set (s0 := mkCursor 0 None f []) in Hm.
  unfold plus at 1 in Hm. cbn [run rest] in Hm.
  destruct (repeat_class Str.is_upper true _ 1 None (rest s0) s0)
    as [res|] eqn:Hrun; [|discriminate].
  injection Hm as <-.
  apply (repeat_sound _ _ _ _ _ s0 _ _ eq_refl) in Hrun.
  destruct Hrun as (U & t1 & Hf & HU & HlenU & Hk1).
  cbn [s0 rest] in Hf.
  destruct (forward_rest U t1 s0 Hf) as (Hr1 & Hp1 & _).
  set (s1 := forward (String.length U) s0) in *.
  rewrite Hr1 in Hk1.
  destruct t1 as [|x t2]; [discriminate|].
  unfold Str.chr at 1 in Hk1.
  destruct (Ascii.eqb_spec "-" x) as [<-|]; [|discriminate].
  unfold plus in Hk1. cbn [run rest advance] in Hk1.
  apply (repeat_sound _ _ _ _ _ (advance "-" t2 s1) _ _ eq_refl) in Hk1.
  destruct Hk1 as (V & tail & Ht2 & HV & HlenV & HK).
  cbn [rest advance] in Ht2. subst t2.
  set (s2 := advance "-" (V ++ tail) s1) in *.
  destruct (forward_rest V tail s2 eq_refl) as (_ & Hp3 & _).
  unfold K in HK. injection HK as <-.
  exists U, V, tail.
  repeat split; trivial.
  - intros ->. simpl in HlenU. lia.
  - intros ->. simpl in HlenV. lia.
  - cbn [group m_caps caps set_cap get_cap Nat.eqb m_string slice].
    unfold slice. rewrite Nat.sub_0_r, Hp3. cbn [s2 advance pos].
    rewrite Hp1. cbn [s0 pos].
    replace (S (0 + String.length U) + String.length V)
      with (String.length (U ++ "-" ++ V))
      by (rewrite !length_append; simpl; lia).
    assert (E : f = (U ++ "-" ++ V) ++ tail)
      by (rewrite Hf, append_assoc; reflexivity).
    rewrite E. apply (substring_middle "" (U ++ "-" ++ V) tail).
Qed.

Lemma prefix_refl (a : string) : String.prefix a a = true.
Proof.
  rewrite <- (append_nil_r a) at 2. apply prefix_append.
Qed.

Lemma all_of_append (c : ascii -> bool) (a b : string) :
  all_of c (a ++ b) = all_of c a && all_of c b.
Proof.
  induction a as [|x a IH]; simpl; [reflexivity|].
  now rewrite IH, andb_assoc.
Qed.

(** X6: the identifier is always the beginning of the file name; taking the
    identifier of an identifier changes nothing; and a name without a
    hyphen, or one that does not begin with a capital letter, is its own
    identifier. *)
Theorem extract_id_prefix_fixpoint (f : string) :
  String.prefix (extract_id f) f = true
  /\ extract_id (extract_id f) = extract_id f
  /\ (all_of not_hyphen f = true \/ stops Str.is_upper f = true ->
      extract_id f = f).
Proof.
  destruct (extract_id_shape f)
    as [Hf | (U & V & tail & Hf & HU & HUall & HV & HVall & Hid)].
  - rewrite Hf. repeat split; trivial. apply prefix_refl.
  - split; [|split].
    + rewrite Hid, Hf.
      assert (E : U ++ "-" ++ V ++ tail = (U ++ "-" ++ V) ++ tail)
        by (now rewrite append_assoc).
      rewrite E. apply prefix_append.
    + rewrite Hid. rewrite <- (append_nil_r V) at 1.
      now apply extract_id_on_name.
    + intros [Hno|Hhead]; exfalso.
      * rewrite Hf, all_of_append in Hno. apply andb_true_iff in Hno.
        destruct Hno as [_ Hno]. discriminate Hno.
      * rewrite Hf in Hhead. destruct U as [|u U]; [congruence|].
        cbn [all_of] in HUall. apply andb_true_iff in HUall.
        destruct HUall as [Hu _]. cbn [append stops] in Hhead.
        rewrite Hu in Hhead. discriminate.
Qed.

Lemma upper_not_hyphen (x : ascii) : Str.is_upper x = true -> x <> "-"%char.
Proof. intros H ->. discriminate H. Qed.

(** Whether a name that starts with capital letters and a hyphen starts
    with a given prefix of such letters and a hyphen is decided by the
    letters alone. *)
Lemma prefix_of_head (W U X : string) :
  all_of Str.is_upper W = true -> all_of Str.is_upper U = true ->
  String.prefix (W ++ "-") (U ++ "-" ++ X) = String.eqb W U.
Proof.
  revert U. induction W as [|w W IH]; intros U HW HU.
  - destruct U as [|u U]; cbn [append String.prefix String.eqb].
    + destruct (ascii_dec "-" "-"); [now destruct X | congruence].
    + cbn [all_of] in HU. apply andb_true_iff in HU. destruct HU as [Hu _].
      apply upper_not_hyphen in Hu.
      destruct (ascii_dec "-" u); [congruence | reflexivity].
  - cbn [all_of] in HW. apply andb_true_iff in HW. destruct HW as [Hw HW].
    destruct U as [|u U]; cbn [append String.prefix String.eqb].
    + apply upper_not_hyphen in Hw.
      destruct (ascii_dec w "-"); [congruence | reflexivity].
    + cbn [all_of] in HU. apply andb_true_iff in HU. destruct HU as [_ HU].
      destruct (ascii_dec w u) as [->|Hne].
      * rewrite Ascii.eqb_refl. now apply IH.
      * apply Ascii.eqb_neq in Hne. now rewrite Hne.
Qed.

(** The type read off the identifier is the type read off the file name. *)
Lemma extract_type_of_id (f : string) :
  extract_type (extract_id f) = extract_type f.
Proof.
  destruct (extract_id_shape f)
    as [Hf | (U & V & tail & Hf & HU & HUall & HV & HVall & Hid)].
  - now rewrite Hf.
  - rewrite Hid, Hf. unfold extract_type, Str.startswith.
    rewrite <- (append_nil_r V) at 1.
    change "NFR-" with ("NFR" ++ "-"). change "ADR-" with ("ADR" ++ "-").
    change "AN-" with ("AN" ++ "-"). change "FR-" with ("FR" ++ "-").
    change "T-" with ("T" ++ "-").
    rewrite !prefix_of_head by (trivial; reflexivity).
    reflexivity.
Qed.

(** X7: the five prefixes classify the identifier as they classify the file
    name, so that the type of a document can be read off its identifier. *)
Theorem type_of_identifier (f : string) :
  extract_type (extract_id f) = extract_type f.
Proof. apply extract_type_of_id. Qed.

(** ** The corpus after loading *)

Lemma has_In {V} (k : string) (d : Py.dict V) :
  Py.has k d = true <-> In k (map fst d).
Proof.
  unfold Py.has. induction d as [|[k' v'] d IH]; simpl.
  - split; [discriminate | tauto].
  - destruct (String.eqb_spec k k') as [->|Hne].
    + split; auto.
    + rewrite IH. split; [auto | intros [H|H]; [congruence | exact H]].
Qed.

Lemma keys_set {V} (k : string) (v : V) (d : Py.dict V) :
  map fst (Py.set k v d)
  = if Py.has k d then map fst d else (map fst d ++ [k])%list.
Proof.
  unfold Py.has. induction d as [|[k' v'] d IH]; simpl; [reflexivity|].
  destruct (String.eqb_spec k k') as [->|Hne]; simpl; [reflexivity|].
  rewrite IH. now destruct (Py.get k d).
Qed.

Lemma NoDup_set {V} (k : string) (v : V) (d : Py.dict V) :
  NoDup (map fst d) -> NoDup (map fst (Py.set k v d)).
Proof.
  intro H. rewrite keys_set. destruct (Py.has k d) eqn:Hhas; [exact H|].
  apply NoDup_app; [exact H | repeat constructor; intros [] | ].
  intros x Hx [<-|[]]. apply has_In in Hx. congruence.
Qed.

Lemma loaded_NoDup (fs : Fs.tree) (ps : list Fs.Path) :
  forall st, NoDup (map fst (documents st)) ->
    NoDup (map fst (documents (fold_left (fun s p => after_file fs p s) ps st))).
Proof.
  induction ps as [|p ps IH]; intros st H; simpl; [exact H|].
  apply IH. unfold after_file. destruct (skipped p); [exact H|].
  cbn [documents]. now apply NoDup_set.
Qed.

(** What [*] and a literal tail accept. *)
Lemma fnmatch_star (tail : string) :
  Fs.literal tail = true ->
  forall s, Fs.fnmatch ("*" ++ tail) s = true -> exists stem, s = stem ++ tail.
Proof.
  intros Hlit s. cbn [append Fs.fnmatch]. rewrite Ascii.eqb_refl.
  induction s as [|x s IH].
  - intro H. apply orb_true_iff in H. destruct H as [H|H]; [|discriminate].
    exists "". now apply fnmatch_literal in H.
  - intro H. apply orb_true_iff in H. destruct H as [H|H].
    + exists "". now apply fnmatch_literal in H.
    + destruct (IH H) as [stem ->]. now exists (String x stem).
Qed.

Lemma glob_md (fs : Fs.tree) (base p : Fs.Path) :
  In p (Fs.glob fs base "*.md") ->
  Fs.parent p = base /\ exists stem, Fs.name p = stem ++ ".md".
Proof.
  intro Hin. unfold Fs.glob in Hin. cbv zeta in Hin.
  change (String.prefix "**/" "*.md") with false in Hin. cbv iota in Hin.
  apply filter_In in Hin. destruct Hin as [_ H].
  apply andb_true_iff in H. destruct H as [H Hm].
  apply andb_true_iff in H. destruct H as [Hb _].
  split.
  - unfold Fs.eqb in Hb. now destruct (list_eq_dec _ _ _).
  - now apply (fnmatch_star ".md").
Qed.

Lemma glob_deep_under (fs : Fs.tree) (base p : Fs.Path) (file : string) :
  In p (Fs.glob fs base ("**/" ++ file)) ->
  Fs.is_prefix base (Fs.parent p) = true.
Proof.
  intro Hin. unfold Fs.glob in Hin. cbv zeta in Hin.
  rewrite (prefix_append "**/" file) in Hin.
  apply filter_In in Hin. destruct Hin as [_ H].
  apply andb_true_iff in H. destruct H as [H _].
  apply andb_true_iff in H. now destruct H.
Qed.

(** Where the files that the loops visit lie and how they are named. *)
Lemma enumerated_place (fs : Fs.tree) (repo_root p : Fs.Path) :
  In p (enumerated fs repo_root) ->
  ((Fs.parent p = collection repo_root "analysis"
    \/ Fs.parent p = collection repo_root "requirements"
    \/ Fs.parent p = collection repo_root "adr")
   /\ exists stem, Fs.name p = stem ++ ".md")
  \/ (Fs.is_prefix (collection repo_root "tasks") (Fs.parent p) = true
      /\ (Fs.name p = "plan.md" \/ Fs.name p = "design.md")).
Proof.
  unfold enumerated, doc_paths. cbn [flat_map fst snd].
  fold (collection repo_root "analysis") (collection repo_root "requirements")
       (collection repo_root "adr") (collection repo_root "tasks").
  intro Hin.
  repeat (apply in_app_or in Hin; destruct Hin as [Hin|Hin]);
    try (destruct (Fs.exists_ fs _); [|destruct Hin]).
  - left. apply glob_md in Hin. destruct Hin as [Hp Hn]. auto.
  - left. apply glob_md in Hin. destruct Hin as [Hp Hn]. auto.
  - left. apply glob_md in Hin. destruct Hin as [Hp Hn]. auto.
  - right. split.
    + now apply (glob_deep_under fs _ p "plan.md").
    + left. apply (glob_deep_name fs (collection repo_root "tasks") p "plan.md");
        [reflexivity | exact Hin].
  - right. split.
    + now apply (glob_deep_under fs _ p "design.md").
    + right.
      apply (glob_deep_name fs (collection repo_root "tasks") p "design.md");
        [reflexivity | exact Hin].
  - destruct Hin.
Qed.

(** X8: every entry of the corpus of a fresh analyzer stands under the
    identifier of its document, made from the name of a file that was not
    skipped; the identifier begins the file name and has the document's
    type; the file is a [.md] file directly in one of the three flat
    collections or a [plan.md] or [design.md] below the tasks directory;
    and no identifier stands twice. *)
Theorem corpus_invariant (fs : Fs.tree) (repo_root : Fs.Path) (st : Interp) :
  let docs := documents (snd (TraceabilityAnalyzer_init fs repo_root st)) in
  NoDup (map fst docs)
  /\ forall k d,
      In (k, d) docs ->
      k = doc_id d
      /\ doc_id d = extract_id (filename d)
      /\ filename d = Fs.name (path d)
      /\ doc_type d = extract_type (filename d)
      /\ extract_type k = doc_type d
      /\ String.prefix k (filename d) = true
      /\ skipped (path d) = false
      /\ (((Fs.parent (path d) = collection repo_root "analysis"
            \/ Fs.parent (path d) = collection repo_root "requirements"
            \/ Fs.parent (path d) = collection repo_root "adr")
           /\ exists stem, filename d = stem ++ ".md")
          \/ (Fs.is_prefix (collection repo_root "tasks") (Fs.parent (path d))
              = true
              /\ (filename d = "plan.md" \/ filename d = "design.md"))).
Proof.
  intro docs. split.
  - unfold docs. rewrite TraceabilityAnalyzer_init_run. cbn [snd].
    apply loaded_NoDup. constructor.
  - intros k d Hin.
    destruct (corpus_entries _ _ _ _ _ Hin) as (p & Hp & Hskip & -> & ->).
    cbn [document_of doc_id filename path doc_type].
    repeat split; trivial.
    + apply extract_type_of_id.
    + destruct (extract_id_shape (Fs.name p))
        as [-> | (U & V & tail & Hf & _ & _ & _ & _ & ->)].
      * apply prefix_refl.
      * rewrite Hf.
        assert (E : U ++ "-" ++ V ++ tail = (U ++ "-" ++ V) ++ tail)
          by (now rewrite append_assoc).
        rewrite E. apply prefix_append.
    + now apply (enumerated_place fs).
Qed.

Lemma fold_left_snoc {A B} (f : A -> B -> A) (xs : list B) (x : B) (a : A) :
  fold_left f (xs ++ [x]) a = f (fold_left f xs a) x.
Proof. now rewrite fold_left_app. Qed.

(** What is found under an identifier after some files are loaded into an
    empty corpus. *)
Lemma get_after_files (fs : Fs.tree) (k : string) (ps : list Fs.Path)
    (st : Interp) :
  documents st = [] ->
  Py.get k (documents (fold_left (fun s p => after_file fs p s) ps st))
  = option_map (document_of fs) (last_under k ps).
Proof.
  intro Hempty. unfold last_under.
  induction ps as [|p ps IH] using rev_ind.
  - simpl. now rewrite Hempty.
  - rewrite fold_left_snoc, rev_unit. cbn [find].
    unfold after_file at 1. destruct (skipped p) eqn:Hskip; cbn [negb andb].
    + exact IH.
    + cbn [documents].
      destruct (String.eqb_spec (extract_id (Fs.name p)) k) as [<-|Hne].
      * cbn [option_map]. apply get_set_same.
      * rewrite get_set_other by congruence. exact IH.
Qed.

(** X9: under an identifier the corpus holds the document of the last file,
    in enumeration order, that is loaded under it, and nothing when there
    is no such file: a later file silently takes the place of an earlier
    one. *)
Theorem last_file_wins (fs : Fs.tree) (repo_root : Fs.Path) (st : Interp)
    (k : string) :
  Py.get k (documents (snd (TraceabilityAnalyzer_init fs repo_root st)))
  = option_map (document_of fs) (last_under k (enumerated fs repo_root)).
Proof.
  rewrite TraceabilityAnalyzer_init_run. cbn [snd].
  now apply get_after_files.
Qed.

Lemma streams_after_files (fs : Fs.tree) (ps : list Fs.Path) :
  forall st,
    stdout (fold_left (fun s p => after_file fs p s) ps st) = stdout st
    /\ stderr (fold_left (fun s p => after_file fs p s) ps st)
       = (stderr st
          ++ flat_map (warnings_of fs)
               (filter (fun p => negb (skipped p)) ps))%list.
Proof.
  induction ps as [|p ps IH]; intro st; simpl.
  - now rewrite app_nil_r.
  - destruct (IH (after_file fs p st)) as [Hout Herr].
    rewrite Hout, Herr. unfold after_file.
    destruct (skipped p); cbn [negb stdout stderr]; [now split|].
    cbn [flat_map]. now rewrite app_assoc.
Qed.

(** X10: building the analyzer always returns, prints nothing on the output
    stream, and adds to the error stream exactly one warning, naming path
    and error, for each visited file that is not skipped and cannot be
    read, in the order of the visit. *)
Theorem loading_effects (fs : Fs.tree) (repo_root : Fs.Path) (st : Interp) :
  let run := TraceabilityAnalyzer_init fs repo_root st in
  fst run = Return tt
  /\ stdout (snd run) = stdout st
  /\ stderr (snd run)
     = (stderr st
        ++ flat_map (warnings_of fs)
             (filter (fun p => negb (skipped p)) (enumerated fs repo_root)))%list
  /\ forall p,
      (warnings_of fs p = [] <-> exists text, Fs.read fs p = inl text)
      /\ (forall msg, Fs.read fs p = inr msg ->
           warnings_of fs p
           = ["Warning: Failed to parse " ++ Fs.str p ++ ": " ++ msg]).
Proof.
  intro run. unfold run. rewrite TraceabilityAnalyzer_init_run. cbn [fst snd].
  destruct (streams_after_files fs (enumerated fs repo_root)
              (mkInterp [] (stdout st) (stderr st))) as [Hout Herr].
  repeat split; trivial.
  - unfold warnings_of. destruct (Fs.read fs p) as [text|msg];
      [now exists text | discriminate].
  - unfold warnings_of. intros [text ->]. reflexivity.
  - intros msg Hmsg. unfold warnings_of. now rewrite Hmsg.
Qed.

Lemma is_prefix_child (p e : Fs.Path) (c : string) :
  Fs.is_prefix (Fs.child p c) e = true -> Fs.is_prefix p e = true.
Proof.
  revert e. unfold Fs.child.
  induction p as [|x p IH]; intros e H; [reflexivity|].
  destruct e as [|y e]; [discriminate|]. cbn [app Fs.is_prefix] in *.
  apply andb_true_iff in H. destruct H as [Hxy H].
  rewrite Hxy. now apply IH.
Qed.

Lemma exists_child (fs : Fs.tree) (p : Fs.Path) (c : string) :
  Fs.exists_ fs p = false -> Fs.exists_ fs (Fs.child p c) = false.
Proof.
  unfold Fs.exists_. intro H.
  destruct (existsb (fun e => Fs.is_prefix (Fs.child p c) (fst e)) fs) eqn:E;
    [|reflexivity].
  apply existsb_exists in E. destruct E as [e [He Hp]].
  apply is_prefix_child in Hp.
  assert (Ht : existsb (fun e => Fs.is_prefix p (fst e)) fs = true)
    by (apply existsb_exists; now exists e).
  congruence.
Qed.

Lemma no_docs_nothing_enumerated (fs : Fs.tree) (repo_root : Fs.Path) :
  Fs.exists_ fs (Fs.child repo_root "docs") = false ->
  enumerated fs repo_root = [].
Proof.
  intro H. unfold enumerated, doc_paths. cbn [flat_map fst snd].
  now rewrite !(exists_child fs _ _ H).
Qed.

(** X11: in a repository without a [docs] directory the analyzer has an
    empty corpus and has printed nothing; the coverage is all zero with the
    int 0 as percentage; check mode prints the confirmation and ends with
    status 0, and gaps-only mode prints nothing. *)
Theorem no_docs_directory (fs : Fs.tree) (cwd repo_root : Fs.Path)
    (gaps : bool) (st : Interp) :
  find_repo_root fs cwd = Some repo_root ->
  Fs.exists_ fs (Fs.child repo_root "docs") = false ->
  let empty := mkInterp [] (stdout st) (stderr st) in
  TraceabilityAnalyzer_init fs repo_root st = (Return tt, empty)
  /\ calculate_coverage empty
     = (Return (mkCoverage 0 0 0 0 0 (Py.Int 0)), empty)
  /\ main fs cwd gaps true st
     = (Return tt, printed ["✓ Traceability check passed"] empty)
  /\ main fs cwd true false st = (Return tt, empty).
Proof.
  intros Hroot Hdocs empty.
  assert (Hinit : TraceabilityAnalyzer_init fs repo_root st = (Return tt, empty)).
  { rewrite TraceabilityAnalyzer_init_run.
    now rewrite (no_docs_nothing_enumerated fs repo_root Hdocs). }
  split; [exact Hinit|]. split; [reflexivity|].
  unfold main. rewrite Hroot.
  rewrite !(bind_run _ _ _ _ _ Hinit).
  split; [reflexivity|].
  reflexivity.
Qed.

Lemma no_docs_directory_witness :
  main [(["srv"; "repo"; "Cargo.toml"], inl "[package]")]
       ["srv"; "repo"; "src"] false true fresh
  = (Return tt, mkInterp [] ["✓ Traceability check passed"] []).
Proof.
  destruct (no_docs_directory
              [(["srv"; "repo"; "Cargo.toml"], inl "[package]")]
              ["srv"; "repo"; "src"] ["srv"; "repo"] false fresh
              eq_refl eq_refl) as (_ & _ & Hcheck & _).
  exact Hcheck.
Defined.

(** ** How the queries fit together *)

Lemma filter_split_length {A} (f : A -> bool) (xs : list A) :
  length (filter f xs) + length (filter (fun x => negb (f x)) xs) = length xs.
Proof.
  induction xs as [|x xs IH]; simpl; [reflexivity|].
  destruct (f x); simpl; lia.
Qed.

(** With every entry under the identifier of its document, the orphan
    requirements are the requirement documents without implementing task. *)
Lemma orphans_by_document (c : Spec.Corpus) (l : Py.dict TDLDocument) :
  (forall k d, In (k, d) l -> k = doc_id d) ->
  length (map fst (filter (Spec.is_orphan_requirement c) l))
  = length
      (filter (fun r => negb match Spec.implementingTasks c (doc_id r) with
                             | [] => false | _ => true end)
              (filter (of_type requirement) (Py.values l))).
Proof.
  induction l as [|[k d] l IH]; intro Hkey; [reflexivity|].
  assert (Hk : k = doc_id d) by (apply Hkey; now left).
  assert (IH' := IH (fun k' d' H => Hkey k' d' (or_intror H))).
  unfold Py.values in *. cbn [filter map fst snd].
  unfold Spec.is_orphan_requirement at 1, of_type at 1. cbn [fst snd].
  destruct (DocType_eqb (doc_type d) requirement); cbn [andb filter].
  - subst k.
    destruct (Spec.implementingTasks c (doc_id d)); cbn [negb map length];
      now rewrite IH'.
  - exact IH'.
Qed.

Lemma loaded_keyed (fs : Fs.tree) (repo_root : Fs.Path) (st : Interp)
    (k : string) (d : TDLDocument) :
  In (k, d) (documents (snd (TraceabilityAnalyzer_init fs repo_root st))) ->
  k = doc_id d.
Proof.
  intro H. now destruct (corpus_entries _ _ _ _ _ H) as (_ & _ & _ & _ & ->).
Qed.

Lemma requirements_split (c : Spec.Corpus) :
  (forall k d, In (k, d) c -> k = doc_id d) ->
  length (Spec.C c) + length (Spec.orphanRequirements c) = length (Spec.R c).
Proof.
  intro Hkey. unfold Spec.orphanRequirements.
  rewrite (orphans_by_document c c Hkey).
  unfold Spec.C. fold (Spec.R c). apply filter_split_length.
Qed.

(** X12: on the corpus of a fresh analyzer the requirements that
    [calculate_coverage] counts as having tasks and the orphans that
    [find_orphan_requirements] returns add up to all requirements. *)
Theorem covered_and_orphans (fs : Fs.tree) (repo_root : Fs.Path)
    (st0 : Interp) :
  let st := snd (TraceabilityAnalyzer_init fs repo_root st0) in
  exists cov orphans,
    calculate_coverage st = (Return cov, st)
    /\ find_orphan_requirements st = (Return orphans, st)
    /\ requirements_with_tasks cov + length orphans = total_requirements cov.
Proof.
  intro st. eexists. eexists.
  split; [apply calculate_coverage_run|].
  split; [apply find_orphan_requirements_run|].
  cbn [requirements_with_tasks total_requirements].
  apply requirements_split. intros k d. apply loaded_keyed.
Qed.

(** X13: when [check_integrity] passes on the corpus of a fresh analyzer,
    [calculate_coverage] counts every requirement as having tasks, and its
    percentage is the int 0 without requirements and the double 100.0
    with fewer than 2^53 of them. *)
Theorem check_passed_full_coverage (fs : Fs.tree) (repo_root : Fs.Path)
    (st0 : Interp) :
  let st := snd (TraceabilityAnalyzer_init fs repo_root st0) in
  fst (check_integrity st) = Return true ->
  exists cov,
    calculate_coverage st = (Return cov, st)
    /\ requirements_with_tasks cov = total_requirements cov
    /\ (total_requirements cov = 0 -> coverage_percentage cov = Py.Int 0)
    /\ (0 < total_requirements cov ->
        (Z.of_nat (total_requirements cov) < 2 ^ 53)%Z ->
        coverage_percentage cov = Py.Float Py.hundred).
Proof.
  intros st Hcheck.
  pose proof (check_integrity_run st) as Hrun. cbv zeta in Hrun.
  rewrite Hrun in Hcheck.
  destruct (truthy (Spec.orphanRequirements (documents st))
            || truthy (Spec.orphanTasks (documents st))) eqn:Hor;
    [discriminate|].
  apply orb_false_iff in Hor. destruct Hor as [Hor _].
  apply truthy_false in Hor.
  pose proof (requirements_split (documents st)
                (fun k d => loaded_keyed fs repo_root st0 k d)) as Hsplit.
  rewrite Hor in Hsplit. cbn [length] in Hsplit. rewrite Nat.add_0_r in Hsplit.
  eexists. split; [apply calculate_coverage_run|].
  cbn [requirements_with_tasks total_requirements coverage_percentage].
  split; [exact Hsplit|]. split.
  - intro H0. destruct (Spec.R (documents st)); [reflexivity|discriminate].
  - intros Hpos Hsmall. rewrite Hsplit.
    destruct (Spec.R (documents st)) as [|r rs] eqn:HR;
      [cbn [length] in Hpos; lia|].
    cbn [truthy]. f_equal. apply truediv_same_times_100. lia.
Qed.

Lemma check_passed_full_coverage_witness :
  exists cov,
    calculate_coverage (Sample.loaded Sample.covered)
    = (Return cov, Sample.loaded Sample.covered)
    /\ requirements_with_tasks cov = total_requirements cov
    /\ coverage_percentage cov = Py.Float Py.hundred.
Proof.
  destruct (check_passed_full_coverage Sample.covered Sample.root fresh
              eq_refl) as (cov & Hrun & Hall & _ & H100).
  exists cov. split; [exact Hrun|]. split; [exact Hall|].
  assert (Hcov : fst (calculate_coverage (Sample.loaded Sample.covered))
                 = Return cov).
  { unfold Sample.loaded. now rewrite Hrun. }
  vm_compute in Hcov. injection Hcov as <-.
  apply H100; [cbn; lia | reflexivity].
Defined.

(** X14: the four totals of [calculate_coverage] and the documents of
    unknown type add up to the size of the corpus: a document of unknown
    type is counted in no total. *)
Theorem totals_partition (st : Interp) :
  exists cov,
    calculate_coverage st = (Return cov, st)
    /\ total_requirements cov + total_tasks cov + total_analyses cov
       + total_adrs cov
       + length (filter (of_type unknown) (Py.values (documents st)))
       = length (documents st).
Proof.
  eexists. split; [apply calculate_coverage_run|].
  cbn [total_requirements total_tasks total_analyses total_adrs].
  unfold Spec.R, Py.values.
  induction (documents st) as [|[k d] c IH]; [reflexivity|].
  unfold of_type in *. cbn [map snd filter length].
  destruct (doc_type d); cbn [DocType_eqb length]; lia.
Qed.

Lemma NoDup_keys_value {V} (c : Py.dict V) (k : string) (v v' : V) :
  NoDup (map fst c) -> In (k, v) c -> In (k, v') c -> v = v'.
Proof.
  induction c as [|[k0 v0] c IH]; intros Hnd H1 H2; [destruct H1|].
  cbn [map fst] in Hnd. inversion Hnd as [|? ? Hnot Hnd']; subst.
  destruct H1 as [H1|H1], H2 as [H2|H2].
  - congruence.
  - injection H1 as -> ->. elim Hnot. apply in_map_iff. now exists (k, v').
  - injection H2 as -> ->. elim Hnot. apply in_map_iff. now exists (k, v).
  - now apply IH.
Qed.

(** X15: on the corpus of a fresh analyzer every document of type task is
    either an orphan task or an implementing task of each identifier in its
    requirements list, which is then not empty, and never both. *)
Theorem tasks_orphan_or_implementing (fs : Fs.tree) (repo_root : Fs.Path)
    (st0 : Interp) :
  let st := snd (TraceabilityAnalyzer_init fs repo_root st0) in
  exists orphans implementing,
    find_orphan_tasks st = (Return orphans, st)
    /\ (forall req_id,
          find_implementing_tasks req_id st = (Return (implementing req_id), st))
    /\ (forall k req_id, In k (implementing req_id) -> ~ In k orphans)
    /\ forall k d,
        In (k, d) (documents st) -> doc_type d = task ->
        In k orphans
        \/ (links_get "requirements" [] (links d) <> []
            /\ forall req_id,
                 In req_id (links_get "requirements" [] (links d)) ->
                 In k (implementing req_id)).
Proof.
  intro st. set (c := documents st).
  exists (Spec.orphanTasks c), (Spec.implementingTasks c).
  split; [apply find_orphan_tasks_run|].
  split; [intro req_id; apply find_implementing_tasks_run|].
  assert (Hnd : NoDup (map fst c)).
  { unfold c, st. rewrite TraceabilityAnalyzer_init_run. cbn [snd].
    apply loaded_NoDup. constructor. }
  split.
  - intros k req_id Himpl Horph.
    unfold Spec.implementingTasks in Himpl. unfold Spec.orphanTasks in Horph.
    apply In_map_fst_filter in Himpl. apply In_map_fst_filter in Horph.
    destruct Himpl as [d [Hd Hi]]. destruct Horph as [d' [Hd' Ho]].
    rewrite (NoDup_keys_value c k d' d Hnd Hd' Hd) in Ho.
    unfold Spec.implements, Spec.requirements_of, links_get in Hi.
    unfold Spec.is_orphan_task in Ho. cbn [fst snd] in Hi, Ho.
    apply andb_true_iff in Hi. destruct Hi as [_ Hi].
    apply andb_true_iff in Ho. destruct Ho as [_ Ho].
    destruct (Py.get "requirements" (entries (links d))) as [[|x xs]|];
      discriminate.
  - intros k d Hin Htask.
    destruct (Spec.is_orphan_task (k, d)) eqn:Ho.
    + left. unfold Spec.orphanTasks. apply In_map_fst_filter. now exists d.
    + right. unfold Spec.is_orphan_task in Ho. cbn [fst snd] in Ho.
      rewrite Htask in Ho. cbn [DocType_eqb andb] in Ho.
      unfold links_get.
      destruct (Py.get "requirements" (entries (links d))) as [[|x xs]|] eqn:Hg;
        try discriminate.
      split; [discriminate|].
      intros req_id Hreq. unfold Spec.implementingTasks.
      apply In_map_fst_filter. exists d. split; [exact Hin|].
      unfold Spec.implements, Spec.requirements_of, links_get.
      cbn [fst snd]. rewrite Htask, Hg. cbn [DocType_eqb andb].
      now apply mem_In.
Qed.

(** X17: [check_integrity] never prints on the output stream and never
    changes the corpus; when it passes it leaves the whole state as it was,
    and when it fails it adds to the error stream one heading and one line
    for each orphan. *)
Theorem check_integrity_effects (st : Interp) :
  let st' := snd (check_integrity st) in
  documents st' = documents st
  /\ stdout st' = stdout st
  /\ (fst (check_integrity st) = Return true -> st' = st)
  /\ (fst (check_integrity st) = Return false ->
      exists orphan_reqs orphan_tasks lines,
        find_orphan_requirements st = (Return orphan_reqs, st)
        /\ find_orphan_tasks st = (Return orphan_tasks, st)
        /\ stderr st' = (stderr st ++ lines)%list
        /\ length lines = 1 + length orphan_reqs + length orphan_tasks).
Proof.
  intro st'. unfold st'.
  pose proof (check_integrity_run st) as Hrun. cbv zeta in Hrun.
  rewrite Hrun.
  destruct (truthy _ || truthy _); cbn [fst snd documents stdout stderr].
  - repeat split; try discriminate. intros _.
    exists (Spec.orphanRequirements (documents st)),
           (Spec.orphanTasks (documents st)).
    eexists.
    split; [apply find_orphan_requirements_run|].
    split; [apply find_orphan_tasks_run|].
    split; [reflexivity|].
    cbn [length]. now rewrite length_app, !length_map.
  - repeat split; try discriminate.
Qed.

(** ** The repository root *)

Lemma walk_up_spec (fs : Fs.tree) (l : list string) :
  match walk_up fs l with
  | Some r =>
      exists a b,
        l = (a ++ b)%list /\ b <> [] /\ r = rev b
        /\ has_marker fs (rev b) = true
        /\ forall a1 a2, a = (a1 ++ a2)%list -> a2 <> [] ->
                         has_marker fs (rev (a2 ++ b)) = false
  | None =>
      forall a b, l = (a ++ b)%list -> b <> [] -> has_marker fs (rev b) = false
  end.
Proof.
  induction l as [|x l IH]; cbn [walk_up].
  - intros a b H Hb. destruct a, b; try discriminate. congruence.
  - fold (has_marker fs (rev (x :: l))).
    destruct (has_marker fs (rev (x :: l))) eqn:Hm.
    + exists [], (x :: l). repeat split; trivial; try discriminate.
      intros a1 a2 H Ha2. destruct a1, a2; try discriminate. congruence.
    + destruct (walk_up fs l) as [r|].
      * destruct IH as (a & b & -> & Hb & -> & Hmb & Hnear).
        exists (x :: a), b. repeat split; trivial.
        intros a1 a2 H Ha2. destruct a1 as [|y a1]; cbn [app] in H.
        -- subst a2. exact Hm.
        -- injection H as -> ->. now apply (Hnear a1 a2).
      * intros a b H Hb. destruct a as [|y a]; cbn [app] in H.
        -- subst b. exact Hm.
        -- injection H as -> ->. now apply (IH a b).
Qed.

(** X18: the root that [main] finds is the nearest directory, from the
    working directory upwards, that holds [.git] or [Cargo.toml], the
    filesystem root left out; when there is none, the working directory
    being the filesystem root included, [main] writes the error, loads and
    prints nothing else and ends with status 1. *)
Theorem repository_root_search (fs : Fs.tree) (cwd : Fs.Path)
    (gaps check : bool) (st : Interp) :
  match find_repo_root fs cwd with
  | Some repo_root =>
      exists below,
        cwd = (repo_root ++ below)%list /\ repo_root <> []
        /\ has_marker fs repo_root = true
        /\ forall x y, below = (x ++ y)%list -> x <> [] ->
                       has_marker fs (repo_root ++ x)%list = false
  | None =>
      (forall x y, cwd = (x ++ y)%list -> x <> [] -> has_marker fs x = false)
      /\ main fs cwd gaps check st
         = (Raise (SystemExit 1),
            mkInterp (documents st) (stdout st)
              (stderr st ++ ["Error: Could not find repository root"]))
  end
  /\ find_repo_root fs [] = None.
Proof.
  split; [|reflexivity].
  pose proof (walk_up_spec fs (rev cwd)) as H.
  unfold main, find_repo_root in *.
  destruct (walk_up fs (rev cwd)) as [r|].
  - destruct H as (a & b & Hl & Hb & -> & Hm & Hnear).
    exists (rev a). repeat split; trivial.
    + rewrite <- rev_app_distr, <- Hl. now rewrite rev_involutive.
    + intro H. apply (f_equal (@rev string)) in H.
      rewrite rev_involutive in H. now apply Hb.
    + intros x y Hxy Hx. rewrite <- (rev_involutive x), <- rev_app_distr.
      apply (Hnear (rev y) (rev x)).
      * rewrite <- rev_app_distr, <- Hxy. now rewrite rev_involutive.
      * intro H0. apply (f_equal (@rev string)) in H0.
        rewrite rev_involutive in H0. now apply Hx.
  - split; [|reflexivity].
    intros x y Hxy Hx. rewrite <- (rev_involutive x).
    apply (H (rev y) (rev x)).
    + now rewrite Hxy, rev_app_distr.
    + intro H0. apply (f_equal (@rev string)) in H0.
      rewrite rev_involutive in H0. now apply Hx.
Qed.

(** [print_status] only prints, whatever the mode. *)
Lemma print_status_prints (gaps_only : bool) (st : Interp) :
  exists lines, print_status gaps_only st = (Return tt, printed lines st).
Proof.
  pose proof (print_status_gaps_run gaps_only) as Hgaps. cbv zeta in Hgaps.
  unfold print_status. destruct gaps_only; cbn [negb when].
  - rewrite (bind_run _ _ tt st st eq_refl).
    rewrite (bind_run _ _ _ _ _ (Hgaps st)).
    eexists. unfold ret. reflexivity.
  - destruct (print_status_coverage_run st) as [before Hbefore].
    rewrite (bind_run _ _ _ _ _ Hbefore).
    rewrite (bind_run _ _ _ _ _ (Hgaps (printed before st))).
    match goal with
    | |- context [print_status_by_type ?s] =>
        destruct (print_status_by_type_run s) as [after Hafter]; rewrite Hafter
    end.
    rewrite !printed_printed. eexists. reflexivity.
Qed.

(** X20: without [--check], once the root is found, [main] always returns
    normally, so the process ends with status 0 whether there are gaps or
    not; it leaves the loaded corpus and the error stream of the loading
    as they are and only prints. *)
Theorem display_mode_succeeds (fs : Fs.tree) (cwd repo_root : Fs.Path)
    (gaps : bool) (st : Interp) :
  find_repo_root fs cwd = Some repo_root ->
  let loaded := snd (TraceabilityAnalyzer_init fs repo_root st) in
  exists lines,
    main fs cwd gaps false st = (Return tt, printed lines loaded)
    /\ exit_code (fst (main fs cwd gaps false st)) = 0%Z.
Proof.
  intros Hroot loaded. unfold main. rewrite Hroot.
  rewrite (bind_run _ _ _ _ _ (TraceabilityAnalyzer_init_run fs repo_root st)).
  unfold loaded. rewrite TraceabilityAnalyzer_init_run. cbn [snd].
  match goal with
  | |- context [print_status gaps ?s] =>
      destruct (print_status_prints gaps s) as [lines Hlines]
  end.
  exists lines. rewrite Hlines. now split.
Qed.

Lemma display_mode_succeeds_witness :
  exit_code (fst (main Sample.tree Sample.root true false fresh)) = 0%Z
  /\ fst (find_orphan_requirements (Sample.loaded Sample.tree))
     = Return ["FR-0002"; "FR-0001"].
Proof.
  split; [|reflexivity].
  destruct (display_mode_succeeds Sample.tree Sample.root Sample.root true
              fresh eq_refl) as (lines & _ & Hcode).
  exact Hcode.
Defined.

(** ** The status summary *)

Lemma type_name_inj (t u : DocType) : type_name t = type_name u -> t = u.
Proof. destruct t, u; cbn; congruence. Qed.

Lemma group_by_type_get (t : DocType) (docs : list TDLDocument) :
  Py.get (type_name t) (group_by_type docs)
  = match filter (of_type t) docs with
    | [] => None
    | ds => Some ds
    end.
Proof.
  unfold group_by_type.
  induction docs as [|x docs IH] using rev_ind; [reflexivity|].
  rewrite fold_left_snoc, filter_app. cbv zeta. cbn [filter]. unfold of_type at 2.
  destruct (DocType_eqb (doc_type x) t) eqn:E.
  - apply DocType_eqb_eq in E. rewrite E, IH.
    destruct (filter (of_type t) docs) as [|d ds];
      now rewrite get_set_same.
  - assert (Hne : type_name t <> type_name (doc_type x)).
    { intro H. apply type_name_inj in H. subst t.
      destruct (doc_type x); discriminate. }
    rewrite app_nil_r.
    destruct (Py.get (type_name (doc_type x)) _);
      now rewrite get_set_other.
Qed.

Lemma count_by_status_get (s : string) (docs : list TDLDocument) :
  Py.get s (count_by_status docs)
  = match length (filter (fun d => String.eqb (status d) s) docs) with
    | O => None
    | n => Some n
    end.
Proof.
  unfold count_by_status.
  induction docs as [|x docs IH] using rev_ind; [reflexivity|].
  rewrite fold_left_snoc, filter_app, length_app. cbn [filter].
  destruct (String.eqb_spec (status x) s) as [->|Hne].
  - rewrite IH. cbn [length].
    destruct (length (filter _ docs)) as [|n];
      rewrite get_set_same; [reflexivity|].
    now rewrite Nat.add_1_r.
  - cbn [length]. rewrite Nat.add_0_r.
    destruct (Py.get (status x) _);
      (rewrite get_set_other; [exact IH | congruence]).
Qed.

Lemma count_by_status_NoDup (docs : list TDLDocument) :
  NoDup (map fst (count_by_status docs)).
Proof.
  unfold count_by_status.
  induction docs as [|x docs IH] using rev_ind; [constructor|].
  rewrite fold_left_snoc.
  destruct (Py.get (status x) _); now apply NoDup_set.
Qed.

Lemma get_In {V} (k : string) (v : V) (d : Py.dict V) :
  NoDup (map fst d) -> In (k, v) d -> Py.get k d = Some v.
Proof.
  induction d as [|[k' v'] d IH]; simpl; [intros _ []|].
  intros Hnd [H|H].
  - injection H as -> ->. now rewrite String.eqb_refl.
  - inversion Hnd as [|? ? Hnotin Hnd']; subst.
    destruct (String.eqb_spec k k') as [->|Hne].
    + exfalso. apply Hnotin. now apply (in_map fst) in H.
    + now apply IH.
Qed.

Lemma In_get {V} (k : string) (v : V) (d : Py.dict V) :
  Py.get k d = Some v -> In (k, v) d.
Proof.
  induction d as [|[k' v'] d IH]; simpl; [discriminate|].
  destruct (String.eqb_spec k k') as [->|Hne].
  - intros [= ->]. now left.
  - intro H. right. now apply IH.
Qed.

Lemma In_insert {A} (le : A -> A -> bool) (x y : A) (l : list A) :
  In x (Py.insert le y l) <-> x = y \/ In x l.
Proof.
  induction l as [|z l IH]; cbn [Py.insert In].
  - intuition congruence.
  - destruct (le y z); cbn [In]; [intuition congruence|].
    rewrite IH. intuition congruence.
Qed.

Lemma In_sorted_by {A} (le : A -> A -> bool) (x : A) (l : list A) :
  In x (Py.sorted_by le l) <-> In x l.
Proof.
  unfold Py.sorted_by. induction l as [|y l IH]; cbn [fold_right In]; [tauto|].
  rewrite In_insert, IH. intuition congruence.
Qed.

(** X16: what the status summary of [print_status] shows. A document type
    gets a block exactly when the corpus holds a document of that type, and
    the block is built from those documents, in corpus order. Within a
    block each status is listed once, with the number of documents of the
    block that have it, which is never zero; the lines are a rearrangement
    of these pairs. *)
Theorem status_summary_data (docs : list TDLDocument) (t : DocType) :
  let block := filter (of_type t) docs in
  (Py.get (type_name t) (group_by_type docs)
   = if truthy block then Some block else None)
  /\ NoDup (map fst (count_by_status block))
  /\ forall s n,
       In (s, n) (Py.sorted_by Py.le_item (count_by_status block))
       <-> n <> 0
           /\ n = length (filter (fun d => String.eqb (status d) s) block).
Proof.
  intro block. split; [|split].
  - rewrite group_by_type_get. fold block. now destruct block.
  - apply count_by_status_NoDup.
  - intros s n.
    assert (Hperm := fun x => In_sorted_by Py.le_item x (count_by_status block)).
    rewrite Hperm. split.
    + intro H. apply (get_In _ _ _ (count_by_status_NoDup block)) in H.
      rewrite count_by_status_get in H.
      destruct (length (filter _ block)); [discriminate|].
      injection H as <-. split; [discriminate | reflexivity].
    + intros [Hn ->]. apply In_get. rewrite count_by_status_get.
      now destruct (length (filter _ block)).
Qed.

(** ** The status line *)









(** ** The categories of a link map *)

Lemma category_step_other (r : regex) (k k' : string) (content : string)
    (d : Py.dict (list string)) :
  k <> k' ->
  Py.get k
    (match search r content with
     | Some m => extend k' (findall ID_TOKEN (group 1 m)) d
     | None => d
     end)
  = Py.get k d.
Proof.
  intro Hne. destruct (search r content); [now apply extend_other | reflexivity].
Qed.

Lemma category_step_same (r : regex) (k : string) (content : string)
    (d : Py.dict (list string)) :
  Py.get k d = None ->
  Py.get k
    (match search r content with
     | Some m => extend k (findall ID_TOKEN (group 1 m)) d
     | None => d
     end)
  = option_map (fun m => findall ID_TOKEN (group 1 m)) (search r content).
Proof.
  intro Hd. destruct (search r content); cbn [option_map]; [|exact Hd].
  now rewrite extend_same, Hd.
Qed.

Lemma formal_found_requirements_found (links_content : string) :
  search FORMAL_REQUIREMENTS links_content <> None ->
  search REQUIREMENTS links_content <> None.
Proof.
  unfold search.
  destruct (scan FORMAL_REQUIREMENTS links_content links_content
              (start_of links_content)) as [m|] eqn:Hm; [intros _|congruence].
  destruct (scan_found _ _ _ _ (start_of links_content) eq_refl Hm)
    as [n Hat].
  apply (scan_some _ _ (n + 7)); [reflexivity|].
  rewrite <- forward_forward. apply formal_then_requirements.
  now rewrite Hat.
Qed.

Lemma collect_keys (links_content : string) (ps : list (regex * string)) :
  forall d,
    NoDup (map fst d) ->
    let d' :=
      fold_left
        (fun d (p : regex * string) =>
           match search (fst p) links_content with
           | Some m => extend (snd p) (findall ID_TOKEN (group 1 m)) d
           | None => d
           end)
        ps d in
    NoDup (map fst d')
    /\ forall k, In k (map fst d') -> In k (map fst d) \/ In k (map snd ps).
Proof.
  induction ps as [|[r c] ps IH]; intros d Hd; cbn [fold_left map fst snd].
  - split; [exact Hd | now left].
  - set (d1 := match search r links_content with
               | Some m => extend c (findall ID_TOKEN (group 1 m)) d
               | None => d
               end).
    assert (H1 : NoDup (map fst d1)
                 /\ forall k, In k (map fst d1) -> In k (map fst d) \/ k = c).
    { unfold d1. destruct (search r links_content); [|now auto].
      unfold extend.
      destruct (Py.get c d);
        (split; [now apply NoDup_set|]);
        intros k Hk; rewrite keys_set in Hk;
        (destruct (Py.has c d); [now left|]);
        (apply in_app_or in Hk; destruct Hk as [Hk|[Hk|[]]]; auto). }
    destruct H1 as [Hnd1 Hk1]. destruct (IH d1 Hnd1) as [Hnd Hk].
    split; [exact Hnd|].
    intros k Hin. destruct (Hk k Hin) as [H|H].
    + destruct (Hk1 k H) as [H'|H']; [now left | right; left; now symmetry].
    + right. now right.
Qed.

(** X19: the link map that [parse_links] builds from a Links section. Its
    keys are among the five categories, each at most once. A category
    other than the requirements is present exactly when its marker is
    found, and then holds the identifiers of the span after the first
    occurrence of the marker, whatever the other categories hold. The
    requirements are present exactly when the pattern of [Requirements:]
    finds a span. *)
Theorem link_map_categories (links_content : string) :
  let d := collect_links links_content [] in
  NoDup (map fst d)
  /\ (forall k, Py.has k d = true ->
                In k ["requirements"; "adrs"; "analyses"; "design"; "plan"])
  /\ (forall r k, In (r, k) patterns -> k <> "requirements" ->
                  Py.get k d
                  = option_map (fun m => findall ID_TOKEN (group 1 m))
                      (search r links_content))
  /\ (Py.get "requirements" d = None
      <-> search REQUIREMENTS links_content = None).
Proof.
  intro d.
  destruct (collect_keys links_content patterns [] (NoDup_nil _)) as [Hnd Hk].
  fold (collect_links links_content []) in Hnd, Hk. fold d in Hnd, Hk.
  split; [exact Hnd|]. split; [|split].
  - intros k Hhas. apply has_In in Hhas.
    destruct (Hk k Hhas) as [[]|H].
    cbn in H. cbn. tauto.
  - intros r k Hin Hne. unfold d, collect_links.
    unfold patterns in Hin |- * . cbn [In] in Hin. cbn [fold_left fst snd].
    destruct Hin as [H|[H|[H|[H|[H|[H|[]]]]]]]; injection H as <- <-;
      try congruence;
      rewrite ?category_step_other by discriminate;
      apply category_step_same;
      rewrite ?category_step_other by discriminate; reflexivity.
  - unfold d, collect_links, patterns. cbn [fold_left fst snd].
    rewrite !category_step_other by discriminate.
    pose proof (formal_found_requirements_found links_content) as Hformal.
    destruct (search REQUIREMENTS links_content) as [m'|].
    + rewrite extend_same. split; discriminate.
    + destruct (search FORMAL_REQUIREMENTS links_content).
      * exfalso. now apply Hformal.
      * now split.
Qed.
